(** * amitytinder-backend: the swipe/match engine, the pin list and the chat store

    A shallow embedding of [routes/auth.js], [routes/chat.js],
    [models/user.js] and [models/chat.js].  The two MongoDB collections are
    explicit state: every route handler is a function from the store (and the
    request) to a reply and the store after it.  What the handlers take from
    their environment (the clock, [Math.random], [bcrypt.compare],
    [Date.prototype.toDateString], [ObjectId.isValid], the id the driver
    gives a new document) is an argument of the handler. *)

From stdpp Require Import gmap strings list fin_maps.
From Stdlib Require Import ZArith.
From stdpp Require Import sorting pretty.
From Stdlib Require Import Ascii.

Open Scope string_scope.
Open Scope list_scope.

(** An [ObjectId] as it travels in a token or a request body.  The handlers
    of [auth.js] give the ids they receive to Mongoose unchecked; the model
    starts from ids that Mongoose can cast. *)
Abbreviation ObjectId := string.

(** ** Replies

    [res.status(code).json(payload)]: a handler answers exactly once. *)
Inductive Response (A : Type) : Type :=
  | Json (code : Z) (payload : A)
  | Error (code : Z) (error : string).
Arguments Json {A} code payload.
Arguments Error {A} code error.

Definition statusCode {A} (r : Response A) : Z :=
  match r with Json c _ => c | Error c _ => c end.

(** ** Update operators of the document store *)
Module Mongo.

(** [$addToSet]: append the value unless the array already holds it. *)
Definition addToSet (x : ObjectId) (l : list ObjectId) : list ObjectId :=
  if decide (x ∈ l) then l else l ++ [x].

(** [$pull]: remove every occurrence of the value. *)
Definition pull (x : ObjectId) (l : list ObjectId) : list ObjectId :=
  filter (λ y, y ≠ x) l.

(** [Array.prototype.includes] on a Mongoose array of ids. *)
Definition includes (l : list ObjectId) (x : ObjectId) : bool :=
  bool_decide (x ∈ l).

(** [Array.prototype.indexOf]: the first position of the value. *)
Fixpoint indexOf (l : list ObjectId) (x : ObjectId) : option nat :=
  match l with
  | [] => None
  | y :: l' => if decide (y = x) then Some 0 else S <$> indexOf l' x
  end.

(** [array.splice(i, 1)]. *)
Definition splice1 (i : nat) (l : list ObjectId) : list ObjectId :=
  take i l ++ drop (S i) l.

End Mongo.

(** ** The user collection ([models/user.js]) *)

Inductive Gender := Male | Female | Other.
Inductive InterestedIn := InMale | InFemale | InBoth.
Inductive Status := active | inactive | banned.

#[global] Instance Gender_eq_dec : EqDecision Gender.
Proof. solve_decision. Defined.
#[global] Instance InterestedIn_eq_dec : EqDecision InterestedIn.
Proof. solve_decision. Defined.

(** A document of the collection, without its [_id] (the key it is stored
    under).  A path that a stored document may lack is an [option]: [None] is
    the absent value.  A string is a sequence of code units below 256. *)
Record User := mkUser {
  email : string;
  password : string;
  username : string;
  name : option string;
  dob : option Z;
  gender : option Gender;
  interestedIn : option InterestedIn;
  bio : string;
  profilePicture : option string;
  university : string;
  swipeLimit : Z;
  spinLimit : Z;
  liked : list ObjectId;
  disliked : list ObjectId;
  matches : list ObjectId;
  otp : string;
  status : Status;
  isVerified : bool;
  pinnedMatches : list ObjectId;
  lastLogin : Z
}.

Definition with_liked (f : list ObjectId → list ObjectId) (u : User) : User :=
  mkUser (email u) (password u) (username u) (name u) (dob u) (gender u)
    (interestedIn u) (bio u) (profilePicture u) (university u) (swipeLimit u)
    (spinLimit u) (f (liked u)) (disliked u) (matches u) (otp u) (status u)
    (isVerified u) (pinnedMatches u) (lastLogin u).

Definition with_disliked (f : list ObjectId → list ObjectId) (u : User) : User :=
  mkUser (email u) (password u) (username u) (name u) (dob u) (gender u)
    (interestedIn u) (bio u) (profilePicture u) (university u) (swipeLimit u)
    (spinLimit u) (liked u) (f (disliked u)) (matches u) (otp u) (status u)
    (isVerified u) (pinnedMatches u) (lastLogin u).

Definition with_matches (f : list ObjectId → list ObjectId) (u : User) : User :=
  mkUser (email u) (password u) (username u) (name u) (dob u) (gender u)
    (interestedIn u) (bio u) (profilePicture u) (university u) (swipeLimit u)
    (spinLimit u) (liked u) (disliked u) (f (matches u)) (otp u) (status u)
    (isVerified u) (pinnedMatches u) (lastLogin u).

Definition with_pinnedMatches (f : list ObjectId → list ObjectId) (u : User) : User :=
  mkUser (email u) (password u) (username u) (name u) (dob u) (gender u)
    (interestedIn u) (bio u) (profilePicture u) (university u) (swipeLimit u)
    (spinLimit u) (liked u) (disliked u) (matches u) (otp u) (status u)
    (isVerified u) (f (pinnedMatches u)) (lastLogin u).

Definition with_swipeLimit (f : Z → Z) (u : User) : User :=
  mkUser (email u) (password u) (username u) (name u) (dob u) (gender u)
    (interestedIn u) (bio u) (profilePicture u) (university u) (f (swipeLimit u))
    (spinLimit u) (liked u) (disliked u) (matches u) (otp u) (status u)
    (isVerified u) (pinnedMatches u) (lastLogin u).

Definition with_spinLimit (f : Z → Z) (u : User) : User :=
  mkUser (email u) (password u) (username u) (name u) (dob u) (gender u)
    (interestedIn u) (bio u) (profilePicture u) (university u) (swipeLimit u)
    (f (spinLimit u)) (liked u) (disliked u) (matches u) (otp u) (status u)
    (isVerified u) (pinnedMatches u) (lastLogin u).

Definition with_lastLogin (t : Z) (u : User) : User :=
  mkUser (email u) (password u) (username u) (name u) (dob u) (gender u)
    (interestedIn u) (bio u) (profilePicture u) (university u) (swipeLimit u)
    (spinLimit u) (liked u) (disliked u) (matches u) (otp u) (status u)
    (isVerified u) (pinnedMatches u) t.

(** [new User({ email, password, username })]: the schema's defaults. *)
Definition newUser (email password username : string) (now : Z) : User :=
  mkUser email password username None None None None "" (Some "") ""
    10 5 [] [] [] "" inactive false [] now.

(** A stored document as Mongoose hands it to a handler: the default of the
    schema fills the one optional path that has one, [profilePicture], when
    the stored document lacks it.  A document that is saved afterwards is
    written with that default. *)
Definition loaded (u : User) : User :=
  mkUser (email u) (password u) (username u) (name u) (dob u) (gender u)
    (interestedIn u) (bio u) (Some (default "" (profilePicture u))) (university u)
    (swipeLimit u) (spinLimit u) (liked u) (disliked u) (matches u) (otp u)
    (status u) (isVerified u) (pinnedMatches u) (lastLogin u).

(** The collection, keyed by [_id]. *)
Abbreviation Users := (gmap ObjectId User).

(** [User.findById]. *)
Definition findById (db : Users) (i : ObjectId) : option User := db !! i.

(** [User.findByIdAndUpdate(id, update)]: the update is applied to the
    document when there is one; the callers only test the result for null. *)
Definition findByIdAndUpdate (i : ObjectId) (f : User → User) (db : Users)
  : option User * Users :=
  match db !! i with
  | Some u => (Some (f u), <[i := f u]> db)
  | None => (None, db)
  end.

(** ** The swipe/match engine ([routes/auth.js]) *)
Module Auth.

(** The reply of [/swipe] and [/spinwin]. *)
Record SwipeReply := mkSwipeReply { message : string; mutual : bool }.

(** The update document both sides of a match receive:
    [{ $addToSet: { matches: other }, $pull: { liked: other, disliked: other } }]. *)
Definition matchUpdate (other : ObjectId) (u : User) : User :=
  with_disliked (Mongo.pull other)
    (with_liked (Mongo.pull other) (with_matches (Mongo.addToSet other) u)).

(** [updateActions], the update document of a swipe that is not mutual. *)
Definition updateActions (direction : string) (targetUserId : ObjectId) (u : User) : User :=
  if decide (direction = "right")
  then with_disliked (Mongo.pull targetUserId)
         (with_liked (Mongo.addToSet targetUserId) u)
  else with_disliked (Mongo.addToSet targetUserId) u.

(** [{ $inc: { swipeLimit: -1 } }]. *)
Definition decSwipeLimit (u : User) : User := with_swipeLimit (λ n, n - 1)%Z u.

(** The two updates of a mutual like, in the order of the source: the
    current user first, the target second. *)
Definition connect (currentUserId targetUserId : ObjectId) (db : Users) : Users :=
  let db1 := (findByIdAndUpdate currentUserId (matchUpdate targetUserId) db).2 in
  (findByIdAndUpdate targetUserId (matchUpdate currentUserId) db1).2.

(** [router.post('/swipe')].  An absent [direction] behaves as any string
    other than the two accepted ones. *)
Definition swipe (currentUserId targetUserId : ObjectId) (direction : string)
    (db : Users) : Response SwipeReply * Users :=
  if negb (bool_decide (direction ∈ ["left"; "right"]))
  then (Error 400 "Invalid swipe direction", db)
  else
    let regular :=
      match findByIdAndUpdate currentUserId (updateActions direction targetUserId) db with
      | (None, db1) => (Error 404 "User not found", db1)
      | (Some _, db1) =>
          let db2 := (findByIdAndUpdate currentUserId decSwipeLimit db1).2 in
          (Json 200 (mkSwipeReply ("Swiped " ++ direction)%string false), db2)
      end in
    if decide (direction = "right") then
      match findById db targetUserId with
      | None => (Error 404 "Target user not found", db)
      | Some targetUser =>
          if Mongo.includes (liked targetUser) currentUserId then
            let db2 := connect currentUserId targetUserId db in
            let db3 := (findByIdAndUpdate currentUserId decSwipeLimit db2).2 in
            (Json 200 (mkSwipeReply "Matched! Connection created." true), db3)
          else regular
      end
    else regular.

(** [router.post('/spinwin')]. *)
Definition spinwin (currentUserId targetUserId : ObjectId) (isSpinnerWinner : bool)
    (direction : string) (db : Users) : Response SwipeReply * Users :=
  if isSpinnerWinner then
    let '(winnerUpdate, db1) :=
      findByIdAndUpdate currentUserId (matchUpdate targetUserId) db in
    let '(targetUserUpdate, db2) :=
      findByIdAndUpdate targetUserId (matchUpdate currentUserId) db1 in
    match winnerUpdate, targetUserUpdate with
    | Some _, Some _ =>
        (Json 200 (mkSwipeReply "Winner connected successfully!" true), db2)
    | _, _ => (Error 404 "User not found", db2)
    end
  else if negb (bool_decide (direction ∈ ["left"; "right"]))
  then (Error 400 "Invalid swipe direction", db)
  else
    let regular :=
      match findByIdAndUpdate currentUserId (updateActions direction targetUserId) db with
      | (None, db1) => (Error 404 "User not found", db1)
      | (Some _, db1) => (Json 200 (mkSwipeReply ("Swiped " ++ direction)%string false), db1)
      end in
    if decide (direction = "right") then
      match findById db targetUserId with
      | None => (Error 404 "Target user not found", db)
      | Some targetUser =>
          if Mongo.includes (liked targetUser) currentUserId then
            (Json 200 (mkSwipeReply "Matched! Connection created." true),
             connect currentUserId targetUserId db)
          else regular
      end
    else regular.


(** *** The candidate feed *)

(** The projection ['name profilePicture dob gender interestedIn bio'] of a
    document, with its [_id]. *)
Record Candidate := mkCandidate {
  cand_id : ObjectId;
  cand_name : option string;
  cand_profilePicture : option string;
  cand_dob : option Z;
  cand_gender : option Gender;
  cand_interestedIn : option InterestedIn;
  cand_bio : string
}.

Definition project (d : ObjectId * User) : Candidate :=
  mkCandidate d.1 (name d.2) (profilePicture (loaded d.2)) (dob d.2) (gender d.2)
    (interestedIn d.2) (bio d.2).

(** [[array[i], array[j]] = [array[j], array[i]]] for two indices in range. *)
Definition swap {A} (i j : nat) (array : list A) : list A :=
  match array !! i, array !! j with
  | Some x, Some y => <[j := x]> (<[i := y]> array)
  | _, _ => array
  end.

(** The loop of [shuffleArray], from index [i] down to 1.  [rnd k] stands for
    the [k]-th call of [Math.random] since the request started, by the index
    it selects: [Math.floor(Math.random() * (i + 1))] is [rnd k mod (i + 1)],
    and every index up to [i] is the value of some draw. *)
Fixpoint shuffleFrom {A} (i : nat) (rnd : nat → nat) (k : nat) (array : list A)
  : list A :=
  match i with
  | 0 => array
  | S i' => shuffleFrom i' rnd (S k) (swap i (rnd k mod (i + 1)) array)
  end.

Definition shuffleArray {A} (rnd : nat → nat) (k : nat) (array : list A) : list A :=
  shuffleFrom (length array - 1) rnd k array.

(** [genderFilter]. *)
Definition genderFilter (i : option InterestedIn) : list Gender :=
  match i with
  | Some InMale => [Male]
  | Some InFemale => [Female]
  | Some InBoth => [Male; Female; Other]
  | None => []
  end.

(** [gender: { $in: genderFilter }]. *)
Definition genderIn (g : option Gender) (genders : list Gender) : bool :=
  match g with
  | Some g => bool_decide (g ∈ genders)
  | None => false
  end.

(** The filter the two queries of [/all-users] share.  The object literal
    [{ $ne: null, $ne: '' }] keeps its last [$ne] only, and [$ne: ''] also
    matches a document without a name. *)
Definition feedFilter (excludeIds : list ObjectId) (genders : list Gender)
    (d : ObjectId * User) : bool :=
  bool_decide (d.1 ∉ excludeIds)
  && bool_decide (name d.2 ≠ Some "")
  && bool_decide (is_Some (dob d.2))
  && genderIn (gender d.2) genders
  && bool_decide (is_Some (interestedIn d.2)).

(** [User.find(filter).skip(skip).limit(limit)], on the documents in the
    order the store keeps them.  The driver sends a negative limit as its
    absolute value. *)
Definition find (P : ObjectId * User → bool) (skip limit : Z) (db : Users)
  : list (ObjectId * User) :=
  take (Z.abs_nat limit) (drop (Z.to_nat skip) (List.filter P (map_to_list db))).

(** [parseInt(req.query.x) || dflt]: [None] is [NaN]. *)
Definition orDefault (q : option Z) (dflt : Z) : Z :=
  match q with
  | Some n => if (n =? 0)%Z then dflt else n
  | None => dflt
  end.

(** [router.get('/all-users')].  The store refuses a negative skip, which the
    handler's [catch] answers with 500. *)
Definition allUsers (rnd : nat → nat) (currentUserId : ObjectId)
    (query_page query_limit : option Z) (db : Users) : Response (list Candidate) :=
  match findById db currentUserId with
  | None => Error 404 "User not found"
  | Some currentUser =>
      let genders := genderFilter (interestedIn currentUser) in
      let excludeIds := liked currentUser ++ matches currentUser ++ [currentUserId] in
      let page := orDefault query_page 1 in
      let limit := orDefault query_limit 10 in
      let skip := ((page - 1) * limit)%Z in
      if (skip <? 0)%Z then Error 500 "Internal server error"
      else
        let usersWithPicture :=
          find (λ d, feedFilter excludeIds genders d
                     && bool_decide (is_Some (profilePicture d.2))) skip limit db in
        let usersWithoutPicture :=
          find (λ d, feedFilter excludeIds genders d
                     && bool_decide (profilePicture d.2 = None)) skip limit db in
        let shuffledWithPicture := shuffleArray rnd 0 usersWithPicture in
        let shuffledWithoutPicture :=
          shuffleArray rnd (length usersWithPicture - 1) usersWithoutPicture in
        Json 200 (project <$> (shuffledWithPicture ++ shuffledWithoutPicture))
  end.

(** *** The validators of the schema *)

(** The white space of [\s] and of [trim] among the code units below 256:
    tab, line feed, vertical tab, form feed, carriage return, space and the
    no-break space. *)
Definition isSpace (c : Ascii.ascii) : bool :=
  bool_decide (Ascii.nat_of_ascii c ∈ [9; 10; 11; 12; 13; 32; 160]%nat).

Fixpoint trimStartS (s : string) : string :=
  match s with
  | EmptyString => EmptyString
  | String c s' => if isSpace c then trimStartS s' else s
  end.

(** [String.prototype.trim], the setter of [trim: true]. *)
Definition trimS (s : string) : string :=
  String.rev (trimStartS (String.rev (trimStartS s))).

(** [email.split('@')[0]]: what precedes the first [@]. *)
Fixpoint beforeAt (s : string) : string :=
  match s with
  | EmptyString => EmptyString
  | String c s' => if Ascii.eqb c "@" then EmptyString else String c (beforeAt s')
  end.

(** What follows the first [@], when there is one. *)
Fixpoint afterAt (s : string) : option string :=
  match s with
  | EmptyString => None
  | String c s' => if Ascii.eqb c "@" then Some s' else afterAt s'
  end.

(** A string of [[^\s@]] characters. *)
Fixpoint allPlain (s : string) : bool :=
  match s with
  | EmptyString => true
  | String c s' => negb (isSpace c) && negb (Ascii.eqb c "@") && allPlain s'
  end.

(** A dot with a character after it. *)
Fixpoint dotThenMore (s : string) : bool :=
  match s with
  | EmptyString => false
  | String c s' => (Ascii.eqb c "." && negb (String.eqb s' "")) || dotThenMore s'
  end.

(** The pattern of the schema, [/^[^\s@]+@[^\s@]+\.[^\s@]+$/]: a non-empty
    local part, one [@], and a domain with a dot that is neither its first
    nor its last character. *)
Definition emailMatches (s : string) : bool :=
  match afterAt s with
  | Some domain =>
      negb (String.eqb (beforeAt s) "") && allPlain (beforeAt s)
      && allPlain domain
      && match domain with
         | EmptyString => false
         | String _ rest => dotThenMore rest
         end
  | None => false
  end.

(** The validators of [userSchema], which run on the whole document: the
    pattern of the email, [minlength: 6] of the password (the stored hash),
    [minlength: 3] of the username and [maxlength: 250] of the bio. *)
Definition validates (doc : User) : bool :=
  emailMatches (email doc)
  && (6 <=? String.length (password doc))%nat
  && (3 <=? String.length (username doc))%nat
  && (String.length (bio doc) <=? 250)%nat.

(** [document.save()] on a document that was loaded and modified: the
    document is validated and written under its id; [None] is the
    ValidationError it throws otherwise, which the [catch] of the handler
    answers with 500. *)
Definition saveDocument (i : ObjectId) (doc : User) (db : Users) : option Users :=
  if validates doc then Some (<[i := doc]> db) else None.

(** *** Connecting and pinning *)

(** [router.post('/connect-user')].  The handler reads [req.user._id], where
    the other handlers read [req.user.id]: the argument is that field of the
    token's payload, [None] when the payload has none.  [winner.save()]
    validates the document it writes. *)
Definition connectUser (req_user__id : option ObjectId) (winnerId : ObjectId)
    (db : Users) : Response string * Users :=
  match req_user__id with
  | None => (Error 401 "User not authenticated", db)
  | Some currentUserId =>
      match findById db winnerId, findById db currentUserId with
      | Some winner, Some currentUser =>
          if negb (Mongo.includes (matches winner) currentUserId)
          then
            match saveDocument winnerId
                    (with_matches (λ m, m ++ [currentUserId]) (loaded winner)) db with
            | Some db' => (Json 200 "User connected successfully", db')
            | None => (Error 500 "Server error", db)
            end
          else (Json 200 "User connected successfully", db)
      | _, _ => (Error 400 "User(s) not found", db)
      end
  end.

(** The reply of [/pin-match]. *)
Record PinReply := mkPinReply { pin_message : string; pin_pinnedMatches : list ObjectId }.

(** [router.put('/pin-match')].  An absent [targetUserId] is the empty
    string: both are falsy.  [currentUser.save()] validates the document it
    writes. *)
Definition pinMatch (currentUserId targetUserId : ObjectId) (db : Users)
  : Response PinReply * Users :=
  if decide (targetUserId = "") then (Error 400 "Target user ID is required", db)
  else
    match findById db currentUserId, findById db targetUserId with
    | Some currentUser, Some targetUser =>
        match Mongo.indexOf (pinnedMatches currentUser) targetUserId with
        | Some matchIndex =>
            let currentUser' :=
              with_pinnedMatches (Mongo.splice1 matchIndex) (loaded currentUser) in
            match saveDocument currentUserId currentUser' db with
            | Some db' =>
                (Json 200 (mkPinReply "Match unpinned successfully"
                             (pinnedMatches currentUser')), db')
            | None => (Error 500 "Internal server error", db)
            end
        | None =>
            let currentUser' :=
              with_pinnedMatches (λ p, p ++ [targetUserId]) (loaded currentUser) in
            match saveDocument currentUserId currentUser' db with
            | Some db' =>
                (Json 200 (mkPinReply "Match pinned successfully"
                             (pinnedMatches currentUser')), db')
            | None => (Error 500 "Internal server error", db)
            end
        end
    | _, _ => (Error 404 "User or target user not found", db)
    end.

(** *** Login *)

(** The reply of [/login]; [login_token] is the payload the token signs,
    [{ id: user._id }]. *)
Record LoginReply := mkLoginReply {
  login_message : string;
  login_token : ObjectId;
  login_username : string;
  login_userId : ObjectId;
  login_swipeLimit : Z;
  login_spinLimit : Z
}.

(** [User.findOne({ email })]. *)
Definition findOneByEmail (db : Users) (e : string) : option (ObjectId * User) :=
  List.find (λ d, bool_decide (email d.2 = e)) (map_to_list db).

Section Login.

(** [bcrypt.compare(password, hash)]. *)
Variable compare : string → string → bool.
(** [new Date(t).toDateString()], the local calendar date of an instant. *)
Variable toDateString : Z → string.

(** The body of [if (lastLoginDate.toDateString() !== currentDate.toDateString())]. *)
Definition dailyReset (currentDate : Z) (user : User) : User :=
  let user1 :=
    if (swipeLimit user <? 20)%Z then with_swipeLimit (λ _, 20%Z) user else user in
  let user2 :=
    if (spinLimit user1 <? 1)%Z then with_spinLimit (λ _, 1%Z) user1 else user1 in
  with_lastLogin currentDate user2.

(** [router.post('/login')]; [currentDate] is the reading of the clock.
    [user.save()] validates the document it writes. *)
Definition login (body_email body_password : string) (currentDate : Z) (db : Users)
  : Response LoginReply * Users :=
  if bool_decide (body_email = "") || bool_decide (body_password = "")
  then (Error 400 "Email and password are required", db)
  else
    match findOneByEmail db body_email with
    | None => (Error 400 "Invalid email or password", db)
    | Some (i, user) =>
        if negb (compare body_password (password user))
        then (Error 400 "Invalid email or password", db)
        else if negb (String.eqb (toDateString (lastLogin user)) (toDateString currentDate))
        then
          let user' := dailyReset currentDate (loaded user) in
          match saveDocument i user' db with
          | Some db' =>
              (Json 200 (mkLoginReply "Login successful" i (username user') i
                           (swipeLimit user') (spinLimit user')), db')
          | None => (Error 500 "Internal server error", db)
          end
        else
          (Json 200 (mkLoginReply "Login successful" i (username user) i
                       (swipeLimit user) (spinLimit user)), db)
    end.

End Login.

(** *** The spinner's candidates and the users who liked the current user *)

(** An entry of the reply of [/spinner-users]. *)
Record SpinnerUser := mkSpinnerUser {
  spinner_id : ObjectId;
  spinner_name : string;
  spinner_profilePicture : string
}.

(** [value || dflt] on an optional string: absent and empty are falsy. *)
Definition orString (value : option string) (dflt : string) : string :=
  match value with
  | Some s => if decide (s = "") then dflt else s
  | None => dflt
  end.

(** [router.get('/spinner-users')]. *)
Definition spinnerUsers (currentUserId : ObjectId) (db : Users)
  : Response (list SpinnerUser) :=
  match findById db currentUserId with
  | None => Error 404 "User not found"
  | Some currentUser =>
      let genders := genderFilter (interestedIn currentUser) in
      let excludeIds := liked currentUser ++ matches currentUser ++ [currentUserId] in
      let users :=
        find (λ d, bool_decide (d.1 ∉ excludeIds)
                   && bool_decide (is_Some (dob d.2))
                   && genderIn (gender d.2) genders) 0 10 db in
      Json 200
        ((λ user, mkSpinnerUser user.1
                    (orString (name user.2) "Name not available")
                    (orString (profilePicture user.2)
                       "https://example.com/dummy-profile.jpg")) <$> users)
  end.

(** The projection ['name profilePicture username'] of a document, with its
    [_id]. *)
Record Admirer := mkAdmirer {
  admirer_id : ObjectId;
  admirer_name : option string;
  admirer_profilePicture : option string;
  admirer_username : string
}.

(** [router.get('/liked-by')]: the query [{ liked: currentUserId }] matches
    the documents whose liked array holds the id. *)
Definition likedBy (currentUserId : ObjectId) (db : Users) : Response (list Admirer) :=
  let users :=
    List.filter (λ d, Mongo.includes (liked d.2) currentUserId) (map_to_list db) in
  if bool_decide (length users = 0)
  then Error 404 "No users have liked you yet."
  else Json 200
         ((λ d, mkAdmirer d.1 (name d.2) (profilePicture (loaded d.2)) (username d.2))
            <$> users).

(** [router.get('/user')]. *)
Definition getUser (currentUserId : ObjectId) (db : Users) : Response User :=
  match findById db currentUserId with
  | None => Error 404 "User not found"
  | Some user => Json 200 (loaded user)
  end.


(** *** Registration *)

(** [User.findOne({ username })]; the query is cast by the schema, which
    trims it. *)
Definition findOneByUsername (db : Users) (n : string) : option (ObjectId * User) :=
  List.find (λ d, bool_decide (username d.2 = trimS n)) (map_to_list db).

Definition isNone {A} (o : option A) : bool :=
  match o with Some _ => false | None => true end.

(** [newUser.save()]: the document is stored under its new id when it passes
    the validators and neither its id nor, by the two unique indexes, its
    email or its username is in use; [None] is the error it throws
    otherwise. *)
Definition save (newId : ObjectId) (doc : User) (db : Users) : option Users :=
  if validates doc
     && isNone (db !! newId)
     && isNone (findOneByEmail db (email doc))
     && isNone (List.find (λ d, bool_decide (username d.2 = username doc)) (map_to_list db))
  then Some (<[newId := doc]> db)
  else None.

(** [`${baseName}_${randomSuffix}`], for the draw [r] of [Math.random]:
    [Math.floor(1000 + Math.random() * 9000)] is [1000 + r mod 9000]. *)
Definition candidate (baseName : string) (r : nat) : string :=
  baseName +:+ "_" +:+ pretty (1000 + N.of_nat r mod 9000)%N.

(** [generateUniqueUsername], which calls itself until a candidate is free:
    [fuel] bounds the number of candidates tried, and [None] is the result
    of a run that has not ended within the bound.  [rnd k] is the [k]-th
    draw. *)
Fixpoint generateUniqueUsername (fuel : nat) (rnd : nat → nat) (k : nat)
    (baseName : string) (db : Users) : option string :=
  match fuel with
  | 0 => None
  | S fuel' =>
      let username := candidate baseName (rnd k) in
      match findOneByUsername db username with
      | Some _ => generateUniqueUsername fuel' rnd (S k) baseName db
      | None => Some username
      end
  end.

(** The reply of [/register]. *)
Record RegisterReply := mkRegisterReply {
  register_message : string;
  register_token : ObjectId;
  register_username : string;
  register_userId : ObjectId
}.

Section Register.

(** [bcrypt.hash(password, 10)], as it comes out for the request. *)
Variable hash : string → string.

(** [router.post('/register')].  [newId] is the id of the new document, [now]
    the reading of the clock for the default of [lastLogin]; an absent
    [username] is the empty string. *)
Definition register (fuel : nat) (rnd : nat → nat) (newId : ObjectId) (now : Z)
    (body_email body_password body_confirmPassword body_username : string)
    (db : Users) : option (Response RegisterReply * Users) :=
  if bool_decide (body_email = "") || bool_decide (body_password = "")
     || bool_decide (body_confirmPassword = "")
  then Some (Error 400 "Email, password, and confirmation password are required", db)
  else if negb (String.eqb body_password body_confirmPassword)
  then Some (Error 400 "Passwords do not match", db)
  else
    match findOneByEmail db body_email with
    | Some _ => Some (Error 400 "Email already exists", db)
    | None =>
        match (if decide (body_username = "")
               then generateUniqueUsername fuel rnd 0 (beforeAt body_email) db
               else Some body_username) with
        | None => None
        | Some finalUsername =>
            let hashedPassword := hash body_password in
            let doc := newUser body_email hashedPassword (trimS finalUsername) now in
            match save newId doc db with
            | Some db' =>
                Some (Json 201 (mkRegisterReply "User registered successfully" newId
                                  finalUsername newId), db')
            | None => Some (Error 500 "Internal server error", db)
            end
        end
    end.

End Register.

End Auth.


(** ** Sorting

    [Array.prototype.sort(compareFn)], which is stable: [x] is put behind the
    elements [y] with [compareFn(x, y) > 0] and in front of the first other
    element.  The store's [sort({ field: -1 })] is modelled by the same sort;
    it promises no order among equal keys. *)
Fixpoint insertBy {A} (compareFn : A → A → Z) (x : A) (l : list A) : list A :=
  match l with
  | [] => [x]
  | y :: l' => if (0 <? compareFn x y)%Z then y :: insertBy compareFn x l' else x :: l
  end.

Definition sortBy {A} (compareFn : A → A → Z) (l : list A) : list A :=
  foldr (insertBy compareFn) [] l.

(** The comparator [(a, b) => key(b) - key(a)]: descending keys. *)
Definition descending {A} (key : A → Z) (a b : A) : Z := (key b - key a)%Z.

(** ** The chat store ([models/chat.js], [routes/chat.js]) *)
Module ChatRoutes.

(** A JavaScript string, by its UTF-16 code units. *)
Definition JSString := list N.

(** WhiteSpace and LineTerminator of ECMAScript, what [trim] removes. *)
Definition whiteSpace : list N :=
  [9; 10; 11; 12; 13; 32; 160; 5760; 8192; 8193; 8194; 8195; 8196; 8197; 8198;
   8199; 8200; 8201; 8202; 8232; 8233; 8239; 8287; 12288; 65279]%N.

Definition isWhiteSpace (c : N) : bool := bool_decide (c ∈ whiteSpace).

Fixpoint trimStart (s : JSString) : JSString :=
  match s with
  | [] => []
  | c :: s' => if isWhiteSpace c then trimStart s' else s
  end.

Definition trimEnd (s : JSString) : JSString := rev (trimStart (rev s)).

(** [String.prototype.trim]. *)
Definition trim (s : JSString) : JSString := trimEnd (trimStart s).

(** [messageSchema]. *)
Record Message := mkMessage {
  sender : ObjectId;
  content : JSString;
  createdAt : Z;
  readBy : list ObjectId
}.

(** [chatSchema], without the two bookkeeping dates of [timestamps: true]. *)
Record Chat := mkChat {
  _id : ObjectId;
  participants : list ObjectId;
  messages : list Message;
  lastMessageAt : Z
}.

(** The collection, in the order the store keeps its documents. *)
Abbreviation Chats := (list Chat).

(** The kinds of failure of the chat routes, by the status they answer with:
    400 for a malformed id or an empty message, 404 for a chat that is not
    found, 500 from the [catch]. *)
Inductive ErrorKind := ValidationError | NotFound | InternalError.

Definition errorKind {A} (r : Response A) : option ErrorKind :=
  match r with
  | Json _ _ => None
  | Error c _ =>
      if (c =? 400)%Z then Some ValidationError
      else if (c =? 404)%Z then Some NotFound
      else Some InternalError
  end.

(** A user as [populate(path, 'name profilePicture')] fills it in: the two
    selected paths and the [_id]. *)
Record Participant := mkParticipant {
  participant_id : ObjectId;
  participant_name : option string;
  participant_profilePicture : option string
}.

(** Populating one reference: [None] is the null that stands for a user that
    is not stored. *)
Definition populateRef (db : Users) (i : ObjectId) : option Participant :=
  (λ u, mkParticipant i (name u) (profilePicture (loaded u))) <$> db !! i.

(** A message after [populate('messages.sender', 'name profilePicture')]. *)
Record PopulatedMessage := mkPopulatedMessage {
  populated_sender : option Participant;
  populated_content : JSString;
  populated_createdAt : Z;
  populated_readBy : list ObjectId
}.

Definition populateSender (db : Users) (m : Message) : PopulatedMessage :=
  mkPopulatedMessage (populateRef db (sender m)) (content m) (createdAt m) (readBy m).

(** [Chat.findOne(filter)]: the first document that matches. *)
Definition findOne (P : Chat → bool) (chats : Chats) : option Chat :=
  List.find P chats.

(** [Chat.findOneAndUpdate(filter, update, { new: true })]: the first
    document that matches is replaced by its update, which is returned. *)
Fixpoint findOneAndUpdate (P : Chat → bool) (f : Chat → Chat) (chats : Chats)
  : option Chat * Chats :=
  match chats with
  | [] => (None, [])
  | c :: rest =>
      if P c then (Some (f c), f c :: rest)
      else let '(r, rest') := findOneAndUpdate P f rest in (r, c :: rest')
  end.

(** [{ participants: { $all: [userId, targetUserId] } }]. *)
Definition bothParticipate (userId targetUserId : ObjectId) (c : Chat) : bool :=
  bool_decide (userId ∈ participants c) && bool_decide (targetUserId ∈ participants c).

Section Routes.

(** [mongoose.Types.ObjectId.isValid]. *)
Variable isValid : ObjectId → bool.

(** [router.post('/start')].  [newId] is the id the driver gives a new
    document, [now] the reading of the clock for [lastMessageAt]'s default. *)
Definition start (userId targetUserId : ObjectId) (newId : ObjectId) (now : Z)
    (chats : Chats) : Response Chat * Chats :=
  if negb (isValid targetUserId)
  then (Error 400 "Valid target user ID is required.", chats)
  else
    match findOne (bothParticipate userId targetUserId) chats with
    | Some chat => (Json 200 chat, chats)
    | None =>
        let chat := mkChat newId [userId; targetUserId] [] now in
        (Json 200 chat, chats ++ [chat])
    end.

(** The update of [/:chatId/message]: the pushed subdocument is cast by
    [messageSchema] ([content] trimmed, [createdAt] the clock's reading
    [nowCast], [readBy] empty); [now] is the [Date.now()] of the route. *)
Definition pushMessage (userId : ObjectId) (body_content : JSString)
    (now nowCast : Z) (c : Chat) : Chat :=
  mkChat (_id c) (participants c)
    (messages c ++ [mkMessage userId (trim body_content) nowCast []]) now.

(** [router.post('/:chatId/message')]; [chat.messages[chat.messages.length - 1]]
    is [last], [None] for [undefined]. *)
Definition postMessage (chatId userId : ObjectId) (body_content : JSString)
    (now nowCast : Z) (chats : Chats) : Response (option Message) * Chats :=
  if negb (isValid chatId) then (Error 400 "Invalid chat ID.", chats)
  else if bool_decide (trim body_content = [])
  then (Error 400 "Message content cannot be empty.", chats)
  else
    match findOneAndUpdate
            (λ c, bool_decide (_id c = chatId) && bool_decide (userId ∈ participants c))
            (pushMessage userId body_content now nowCast) chats with
    | (None, chats') => (Error 404 "Chat not found.", chats')
    | (Some chat, chats') =>
        let newMessage := last (messages chat) in
        (Json 200 newMessage, chats')
    end.

(** [router.get('/messages/:chatId')]; the senders of the messages are
    populated from the user collection. *)
Definition getMessages (chatId : ObjectId) (db : Users) (chats : Chats)
  : Response (list PopulatedMessage) :=
  if negb (isValid chatId) then Error 400 "Invalid chat ID."
  else
    match findOne (λ c, bool_decide (_id c = chatId)) chats with
    | None => Error 404 "Chat not found."
    | Some chat => Json 200 (populateSender db <$> messages chat)
    end.

End Routes.


(** *** The chats of a user *)

(** An entry of the reply of [GET /]: [{ ...chat.toObject(), unreadCount }]. *)
Record ChatEntry := mkChatEntry {
  entry_id : ObjectId;
  entry_participants : list Participant;
  entry_messages : list Message;
  entry_lastMessageAt : Z;
  unreadCount : nat
}.

(** Populating an array of references drops the ids that are not stored. *)
Definition populateParticipants (db : Users) (ids : list ObjectId) : list Participant :=
  omap (populateRef db) ids.

(** [chat.messages.filter((message) => !message.readBy.includes(userId)).length]. *)
Definition countUnread (userId : ObjectId) (c : Chat) : nat :=
  length (List.filter (λ message, negb (Mongo.includes (readBy message) userId))
            (messages c)).

(** [router.get('/')]. *)
Definition listChats (userId : ObjectId) (db : Users) (chats : Chats)
  : Response (list ChatEntry) :=
  let found :=
    sortBy (descending lastMessageAt)
      (List.filter (λ c, bool_decide (userId ∈ participants c)) chats) in
  Json 200
    ((λ chat, mkChatEntry (_id chat) (populateParticipants db (participants chat))
                (messages chat) (lastMessageAt chat) (countUnread userId chat))
       <$> found).

End ChatRoutes.

(** ** The list of matches ([router.get("/matches")] of [routes/auth.js]) *)
Module Matches.

(** An entry of the reply: the populated match ['name profilePicture'] with
    the last message of the chat with the current user, [None] for [null]. *)
Record MatchEntry := mkMatchEntry {
  match_id : ObjectId;
  match_name : option string;
  match_profilePicture : option string;
  lastMessage : option ChatRoutes.Message
}.

(** [populate("matches", "name profilePicture")]: the stored users among the
    matches, in the order of the array (an id that is not stored is dropped);
    the populated path stays selected beside [select("pinnedMatches")]. *)
Definition populateMatches (db : Users) (ids : list ObjectId) : list (ObjectId * User) :=
  omap (λ i, (λ u, (i, u)) <$> db !! i) ids.

(** One step of [fetchMessages]. *)
Definition fetchMessage (currentUserId : ObjectId) (chats : list ChatRoutes.Chat)
    (m : ObjectId * User) : MatchEntry :=
  let chat := ChatRoutes.findOne (ChatRoutes.bothParticipate currentUserId m.1) chats in
  mkMatchEntry m.1 (name m.2) (profilePicture (loaded m.2))
    (match chat with
     | Some chat => last (ChatRoutes.messages chat)
     | None => None
     end).

(** [lastMessage ? new Date(lastMessage.createdAt) : new Date(0)]. *)
Definition dateOf (e : MatchEntry) : Z :=
  match lastMessage e with
  | Some message => ChatRoutes.createdAt message
  | None => 0
  end.

(** The array the handler sorts: the pinned matches, then the others. *)
Definition sortedMatches (currentUserId : ObjectId) (user : User) (db : Users)
    (chats : list ChatRoutes.Chat) : list MatchEntry :=
  let populated := populateMatches db (matches user) in
  let pinnedMatches' :=
    List.filter (λ m, Mongo.includes (pinnedMatches user) m.1) populated in
  let nonPinnedMatches :=
    List.filter (λ m, negb (Mongo.includes (pinnedMatches user) m.1)) populated in
  (fetchMessage currentUserId chats <$> pinnedMatches')
  ++ (fetchMessage currentUserId chats <$> nonPinnedMatches).

(** The handler. *)
Definition listMatches (currentUserId : ObjectId) (db : Users)
    (chats : list ChatRoutes.Chat) : Response (list MatchEntry) :=
  match findById db currentUserId with
  | None => Error 404 "User not found"
  | Some user =>
      Json 200 (sortBy (descending dateOf) (sortedMatches currentUserId user db chats))
  end.

End Matches.

(** ** The requests that write the user collection *)

Inductive Request :=
  | PostLogin (body_email body_password : string) (currentDate : Z)
  | PostSwipe (currentUserId targetUserId : ObjectId) (direction : string)
  | PostSpinwin (currentUserId targetUserId : ObjectId) (isSpinnerWinner : bool)
      (direction : string)
  | PostConnectUser (req_user__id : option ObjectId) (winnerId : ObjectId)
  | PutPinMatch (currentUserId targetUserId : ObjectId).

Section Handle.

Variable compare : string → string → bool.
Variable toDateString : Z → string.

(** The collection after a request has been served. *)
Definition handle (r : Request) (db : Users) : Users :=
  match r with
  | PostLogin e p now => (Auth.login compare toDateString e p now db).2
  | PostSwipe c t d => (Auth.swipe c t d db).2
  | PostSpinwin c t w d => (Auth.spinwin c t w d db).2
  | PostConnectUser c w => (Auth.connectUser c w db).2
  | PutPinMatch c t => (Auth.pinMatch c t db).2
  end.

End Handle.

(** ** Predicates of the properties *)

(** The state of a document towards a user it is matched with. *)
Definition matchedWith (other : ObjectId) (u : User) : Prop :=
  other ∈ matches u ∧ (other ∉ liked u) ∧ (other ∉ disliked u).

(** Every pinned id of every user is one of that user's matches. *)
Definition pinnedWithinMatches (db : Users) : Prop :=
  ∀ i u, db !! i = Some u → pinnedMatches u ⊆ matches u.

(** The requests that pin someone pin a match or lift a pin. *)
Definition pinsAMatch (r : Request) (db : Users) : Prop :=
  match r with
  | PutPinMatch c t =>
      ∀ u, db !! c = Some u → t ∈ matches u ∨ t ∈ pinnedMatches u
  | _ => True
  end.

(** [db'] has the documents of [db], each with the pins it had and at least
    the matches it had. *)
Definition keepsPins (db db' : Users) : Prop :=
  ∀ i u', db' !! i = Some u' →
    ∃ u, db !! i = Some u ∧ pinnedMatches u' = pinnedMatches u ∧ matches u ⊆ matches u'.

(** The number of occurrences of an id in a list of ids. *)
Definition occurrences (x : ObjectId) (l : list ObjectId) : nat :=
  length (filter (λ y, y = x) l).

(** What [/pin-match] does to the pin list of the current user, when both
    users exist: [splice] when the target is in it, [push] when it is not. *)
Definition togglePin (t : ObjectId) (pinned : list ObjectId) : list ObjectId :=
  match Mongo.indexOf pinned t with
  | Some matchIndex => Mongo.splice1 matchIndex pinned
  | None => pinned ++ [t]
  end.

(** ** Example data *)

(** Two users as [/register] stores them, the password as a hash. *)
Definition alice : User := newUser "alice@amity.edu" "$2b$10$h1" "alice_1234" 0.
Definition bob : User := newUser "bob@amity.edu" "$2b$10$h2" "bob_5678" 0.
Definition db0 : Users := <["a" := alice]> (<["b" := bob]> ∅).


(** Carol has liked bob and has no swipe left. *)
Definition carol : User :=
  with_swipeLimit (λ _, 0%Z)
    (with_liked (λ _, ["b"]) (newUser "carol@amity.edu" "$2b$10$h3" "carol_0001" 0)).

(** Alice and bob after a match by the spinner. *)
Definition dbMatched : Users := (Auth.spinwin "a" "b" true "" db0).2.

(** A user with a completed profile. *)
Definition profile (e n : string) (g : Gender) (i : InterestedIn)
    (likes dislikes : list ObjectId) : User :=
  mkUser e "$2b$10$hash" n (Some n) (Some 946684800000%Z) (Some g) (Some i) ""
    (Some "") "" 10 5 likes dislikes [] "" active true [] 0.

(** Ann has liked carol and disliked bob; both pass the filter of her feed. *)
Definition feedDb : Users :=
  <["a" := profile "ann@amity.edu" "Ann" Female InBoth ["c"] ["b"]]>
  (<["b" := profile "bob@amity.edu" "Bob" Male InFemale [] []]>
  (<["c" := profile "cat@amity.edu" "Cat" Female InBoth [] []]> ∅)).


Definition feedOfAnn : list Auth.Candidate :=
  [Auth.project ("b", profile "bob@amity.edu" "Bob" Male InFemale [] [])].

(** The calendar date of an instant in UTC, on the first two days of the
    epoch. *)
Definition utcDay (t : Z) : string :=
  if (t / 86400000 =? 0)%Z then "Thu Jan 01 1970" else "Fri Jan 02 1970".

(** A validity check for the examples: 24 characters. *)
Definition is24 (s : ObjectId) : bool := Nat.eqb (String.length s) 24.

Definition idA : ObjectId := "64b7f0a1c2d3e4f5a6b7c8d9".
Definition idB : ObjectId := "64b7f0a1c2d3e4f5a6b7c8da".
Definition chatAB : ChatRoutes.Chat := ChatRoutes.mkChat "c1" [idA; idB] [] 5.

(** ** Predicates of the further properties *)

(** [db'] has a document exactly where [db] has one, and [P i] relates the
    two documents stored under [i]. *)
Definition stepwise (P : ObjectId → User → User → Prop) (db db' : Users) : Prop :=
  ∀ i, option_Forall2 (P i) (db !! i) (db' !! i).

(** Every liked id is the id of a stored user. *)
Definition likedExist (db : Users) : Prop :=
  ∀ i u j, db !! i = Some u → j ∈ liked u → is_Some (db !! j).

(** Every match is a stored user who holds the match in turn. *)
Definition matchesSymmetric (db : Users) : Prop :=
  ∀ i u j, db !! i = Some u → j ∈ matches u → ∃ v, db !! j = Some v ∧ i ∈ matches v.

(** Alice, bob and carol (who has liked bob). *)
Definition db3 : Users := <["c" := carol]> db0.


(** Ann beside a user who has given a date of birth and a gender only. *)
Definition spinnerDb : Users :=
  <["a" := profile "ann@amity.edu" "Ann" Female InBoth ["c"] []]>
  (<["b" := mkUser "b@amity.edu" "$2b$10$hash" "b_1000" None (Some 0%Z) (Some Male) None ""
              None "" 10 5 [] [] [] "" inactive false [] 0]> ∅).


(** Alice has swiped right on bob, whom carol has liked too. *)
Definition db3a : Users := (Auth.swipe "a" "b" "right" db3).2.


(** Every stored message was sent by a participant of its chat, is not
    empty, and has been read by nobody. *)
Definition messagesWellFormed (chats : list ChatRoutes.Chat) : Prop :=
  ∀ c m, c ∈ chats → m ∈ ChatRoutes.messages c →
    ChatRoutes.sender m ∈ ChatRoutes.participants c ∧
    ChatRoutes.content m ≠ [] ∧ ChatRoutes.readBy m = [].

(** Two chats of the same participants. *)
Definition samePair (c1 c2 : ChatRoutes.Chat) : Prop :=
  ∀ x, x ∈ ChatRoutes.participants c1 ↔ x ∈ ChatRoutes.participants c2.

(** No two stored chats have the same participants. *)
Definition onePerPair (chats : list ChatRoutes.Chat) : Prop :=
  ∀ i j c1 c2, chats !! i = Some c1 → chats !! j = Some c2 → samePair c1 c2 → i = j.


(** The filter of the update of [/:chatId/message]:
    [{ _id: chatId, participants: userId }]. *)
Definition chatOf (chatId userId : ObjectId) (c : ChatRoutes.Chat) : bool :=
  bool_decide (ChatRoutes._id c = chatId)
  && bool_decide (userId ∈ ChatRoutes.participants c).

(** The chat of [idA] and [idB] under a well-formed id, and the two words
    "hi" between spaces. *)
Definition idC : ObjectId := "64b7f0a1c2d3e4f5a6b7c8ff".
Definition chatC : ChatRoutes.Chat := ChatRoutes.mkChat idC [idA; idB] [] 5.
Definition hi : ChatRoutes.JSString := [32; 104; 105; 32]%N.


(** Alice with three matches, bob pinned, and a chat with carol that holds
    one message. *)
Definition dbPins : Users :=
  <["a" := with_pinnedMatches (λ _, ["b"]) (with_matches (λ _, ["d"; "b"; "c"]) alice)]>
  (<["b" := bob]> (<["c" := carol]> (<["d" := bob]> ∅))).

Definition chatsPins : list ChatRoutes.Chat :=
  [ChatRoutes.mkChat idC ["a"; "c"] [ChatRoutes.mkMessage "c" [104; 105]%N 8 []] 8].


(** No two stored users share an email or a username. *)
Definition uniqueAccounts (db : Users) : Prop :=
  ∀ i j u v, db !! i = Some u → db !! j = Some v →
    email u = email v ∨ username u = username v → i = j.

(** The hash of the examples. *)
Definition hashEx (p : string) : string := "$2b$10$" +:+ p.
Definition compareEx (p h : string) : bool := String.eqb h (hashEx p).


(** * Properties *)

(** ** The update operators *)

Lemma elem_of_addToSet x y l : y ∈ Mongo.addToSet x l ↔ y = x ∨ y ∈ l.
Proof.
  unfold Mongo.addToSet. case_decide.
  - split; [auto | intros [->|]; done].
  - rewrite elem_of_app, list_elem_of_singleton. tauto.
Qed.

Lemma elem_of_pull x y l : y ∈ Mongo.pull x l ↔ y ≠ x ∧ y ∈ l.
Proof. unfold Mongo.pull. rewrite list_elem_of_filter. done. Qed.

Lemma addToSet_self x l : x ∈ Mongo.addToSet x l.
Proof. apply elem_of_addToSet. auto. Qed.

Lemma not_elem_of_pull x l : x ∉ Mongo.pull x l.
Proof. rewrite elem_of_pull. tauto. Qed.

Lemma addToSet_idemp x l : Mongo.addToSet x (Mongo.addToSet x l) = Mongo.addToSet x l.
Proof.
  unfold Mongo.addToSet at 1. rewrite decide_True; [done | apply addToSet_self].
Qed.

Lemma NoDup_addToSet x l : NoDup l → NoDup (Mongo.addToSet x l).
Proof.
  intros Hl. unfold Mongo.addToSet. case_decide; [done |].
  apply NoDup_app. repeat split; [done | | apply NoDup_singleton].
  intros y Hy Hx. apply list_elem_of_singleton in Hx. congruence.
Qed.

Lemma includes_true l x : Mongo.includes l x = true ↔ x ∈ l.
Proof. unfold Mongo.includes. apply bool_decide_eq_true. Qed.

Lemma includes_false l x : Mongo.includes l x = false ↔ x ∉ l.
Proof. unfold Mongo.includes. apply bool_decide_eq_false. Qed.

Lemma indexOf_None l x : Mongo.indexOf l x = None ↔ x ∉ l.
Proof.
  induction l as [|y l IH]; simpl.
  - split; [intros _; apply not_elem_of_nil | done].
  - case_decide as Hy.
    + split; [done | intros []; subst; left].
    + rewrite fmap_None, IH, not_elem_of_cons. split; [by auto | by intros [_ ?]].
Qed.

Lemma indexOf_Some l x i :
  Mongo.indexOf l x = Some i → l !! i = Some x ∧ x ∉ take i l.
Proof.
  revert i. induction l as [|y l IH]; intros i; simpl; [done |].
  case_decide as Hy.
  - intros [= <-]. subst. split; [done | apply not_elem_of_nil].
  - intros (j & Hj & ->)%fmap_Some. destruct (IH j Hj) as [? ?].
    split; [done |]. simpl. rewrite not_elem_of_cons. split; [congruence | done].
Qed.

Lemma elem_of_splice1 i l y : y ∈ Mongo.splice1 i l → y ∈ l.
Proof.
  unfold Mongo.splice1. rewrite elem_of_app. intros [H | H].
  - rewrite <- (take_drop i l). apply elem_of_app. by left.
  - rewrite <- (take_drop (S i) l). apply elem_of_app. by right.
Qed.

Lemma splice1_Permutation i l x : l !! i = Some x → x :: Mongo.splice1 i l ≡ₚ l.
Proof.
  intros Hi. unfold Mongo.splice1.
  rewrite <- (take_drop_middle l i x Hi) at 3.
  by rewrite Permutation_middle.
Qed.

(** ** The store *)

Lemma findByIdAndUpdate_Some i f (db : Users) u :
  db !! i = Some u → findByIdAndUpdate i f db = (Some (f u), <[i := f u]> db).
Proof. intros H. unfold findByIdAndUpdate. by rewrite H. Qed.

Lemma findByIdAndUpdate_None i f (db : Users) :
  db !! i = None → findByIdAndUpdate i f db = (None, db).
Proof. intros H. unfold findByIdAndUpdate. by rewrite H. Qed.

(** An update leaves every other document as it was. *)
Lemma findByIdAndUpdate_other i j f (db : Users) :
  i ≠ j → (findByIdAndUpdate i f db).2 !! j = db !! j.
Proof.
  intros Hne. unfold findByIdAndUpdate.
  destruct (db !! i); simpl; [by rewrite lookup_insert_ne | done].
Qed.

Lemma findByIdAndUpdate_same i f (db : Users) :
  (findByIdAndUpdate i f db).2 !! i = f <$> db !! i.
Proof.
  unfold findByIdAndUpdate.
  destruct (db !! i) eqn:E; simpl; [by rewrite lookup_insert_eq | by rewrite E].
Qed.

(** ** Swipes *)

Lemma swipe_valid_direction direction :
  direction = "left" ∨ direction = "right" →
  negb (bool_decide (direction ∈ ["left"; "right"])) = false.
Proof.
  intros H. apply negb_false_iff, bool_decide_eq_true.
  destruct H as [-> | ->]; [left | right; left].
Qed.

(** What a left swipe of an existing actor does: the reply, and the one
    document it rewrites. *)
Lemma swipe_left_spec actor target (db : Users) u :
  db !! actor = Some u →
  Auth.swipe actor target "left" db =
    (Json 200 (Auth.mkSwipeReply "Swiped left" false),
     <[actor := Auth.decSwipeLimit (with_disliked (Mongo.addToSet target) u)]> db).
Proof.
  intros Hu. unfold Auth.swipe. simpl.
  rewrite (findByIdAndUpdate_Some _ _ _ _ Hu).
  unfold Auth.updateActions. simpl.
  rewrite (findByIdAndUpdate_Some actor Auth.decSwipeLimit _ _ (lookup_insert_eq _ _ _)).
  simpl. by rewrite insert_insert_eq.
Qed.

(** The update of a right swipe puts the target into liked and takes it out
    of disliked; the update of a left swipe has no counterpart for liked. *)
Lemma updateActions_right target u :
  target ∈ liked (Auth.updateActions "right" target u) ∧
  target ∉ disliked (Auth.updateActions "right" target u).
Proof.
  unfold Auth.updateActions. simpl.
  split; [apply addToSet_self | apply not_elem_of_pull].
Qed.

(** A left swipe never touches the actor's liked set. *)
Lemma swipe_left_keeps_liked actor target (db : Users) u :
  db !! actor = Some u →
  liked <$> (Auth.swipe actor target "left" db).2 !! actor = Some (liked u).
Proof.
  intros Hu. rewrite (swipe_left_spec _ _ _ _ Hu). simpl.
  by rewrite lookup_insert_eq.
Qed.

(** C1, at its failing input: alice swipes right on bob (who has not liked
    her), then left on bob.  Before the two swipes her liked and disliked
    sets are empty; after them bob is a member of both. *)
Theorem swipe_right_then_left_overlap :
  let db1 := (Auth.swipe "a" "b" "right" db0).2 in
  let db2 := (Auth.swipe "a" "b" "left" db1).2 in
  liked <$> db0 !! "a" = Some [] ∧ disliked <$> db0 !! "a" = Some [] ∧
  liked <$> db2 !! "a" = Some ["b"] ∧ disliked <$> db2 !! "a" = Some ["b"].
Proof. vm_compute. done. Qed.

(** C2, at its failing input: carol has liked bob and swipes left on him.
    The reply says no match, her swipeLimit goes from 0 to -1, bob joins her
    disliked set, and bob is still in her liked set. *)
Theorem swipe_left_leaves_liked :
  let db := <["c" := carol]> db0 in
  let r := Auth.swipe "c" "b" "left" db in
  r.1 = Json 200 (Auth.mkSwipeReply "Swiped left" false) ∧
  swipeLimit <$> r.2 !! "c" = Some (-1)%Z ∧
  disliked <$> r.2 !! "c" = Some ["b"] ∧
  liked <$> r.2 !! "c" = Some ["b"].
Proof. vm_compute. done. Qed.

Lemma matchUpdate_matchedWith other u : matchedWith other (Auth.matchUpdate other u).
Proof.
  unfold matchedWith, Auth.matchUpdate. simpl.
  split; [apply addToSet_self | split; apply not_elem_of_pull].
Qed.

Lemma decSwipeLimit_matchedWith other u :
  matchedWith other u → matchedWith other (Auth.decSwipeLimit u).
Proof. done. Qed.

(** After the two updates of a match, each of two existing users is matched
    with the other. *)
Lemma connect_matchedWith actor target (db : Users) ua ut :
  db !! actor = Some ua → db !! target = Some ut →
  ∃ ua' ut',
    Auth.connect actor target db !! actor = Some ua' ∧
    Auth.connect actor target db !! target = Some ut' ∧
    matchedWith target ua' ∧ matchedWith actor ut'.
Proof.
  intros Ha Ht. unfold Auth.connect.
  rewrite (findByIdAndUpdate_Some _ _ _ _ Ha). simpl.
  destruct (decide (actor = target)) as [-> | Hne].
  - rewrite (findByIdAndUpdate_Some target _ _ _ (lookup_insert_eq _ _ _)). simpl.
    eexists _, _. rewrite lookup_insert_eq.
    repeat split; try done; apply matchUpdate_matchedWith.
  - assert (<[actor := Auth.matchUpdate target ua]> db !! target = Some ut) as Ht'
      by by rewrite lookup_insert_ne.
    rewrite (findByIdAndUpdate_Some _ _ _ _ Ht'). simpl.
    eexists _, _. rewrite lookup_insert_eq, lookup_insert_ne, lookup_insert_eq by done.
    repeat split; try done; apply matchUpdate_matchedWith.
Qed.

(** C3: when A has liked B, a right swipe of B on A answers with a match,
    puts each of the two in the other's matches, and leaves neither in the
    other's liked or disliked set. *)
Theorem swipe_right_mutual (A B : ObjectId) (db : Users) (ua ub : User) :
  db !! A = Some ua → db !! B = Some ub → B ∈ liked ua →
  ∃ ua' ub',
    (Auth.swipe B A "right" db).1
      = Json 200 (Auth.mkSwipeReply "Matched! Connection created." true) ∧
    (Auth.swipe B A "right" db).2 !! A = Some ua' ∧
    (Auth.swipe B A "right" db).2 !! B = Some ub' ∧
    B ∈ matches ua' ∧ A ∈ matches ub' ∧
    (B ∉ liked ua') ∧ (B ∉ disliked ua') ∧ (A ∉ liked ub') ∧ (A ∉ disliked ub').
Proof.
  intros Ha Hb Hliked.
  destruct (connect_matchedWith B A db ub ua Hb Ha)
    as (ub1 & ua1 & Hb1 & Ha1 & (? & ? & ?) & (? & ? & ?)).
  unfold Auth.swipe. simpl. unfold findById. rewrite Ha.
  apply includes_true in Hliked. rewrite Hliked. simpl.
  rewrite (findByIdAndUpdate_Some _ _ _ _ Hb1). simpl.
  destruct (decide (A = B)) as [-> | Hne].
  - exists (Auth.decSwipeLimit ub1), (Auth.decSwipeLimit ub1).
    rewrite lookup_insert_eq. done.
  - exists ua1, (Auth.decSwipeLimit ub1).
    rewrite lookup_insert_eq, lookup_insert_ne by done. done.
Qed.

(** C3 on alice and bob, once alice has swiped right on bob. *)
Lemma swipe_right_mutual_witness :
  let db1 := (Auth.swipe "a" "b" "right" db0).2 in
  ∃ ua' ub',
    (Auth.swipe "b" "a" "right" db1).1
      = Json 200 (Auth.mkSwipeReply "Matched! Connection created." true) ∧
    (Auth.swipe "b" "a" "right" db1).2 !! "a" = Some ua' ∧
    (Auth.swipe "b" "a" "right" db1).2 !! "b" = Some ub' ∧
    "b" ∈ matches ua' ∧ "a" ∈ matches ub' ∧
    ("b" ∉ liked ua') ∧ ("b" ∉ disliked ua') ∧ ("a" ∉ liked ub') ∧ ("a" ∉ disliked ub').
Proof.
  intros db1.
  apply (swipe_right_mutual "a" "b" db1
           (Auth.decSwipeLimit (with_disliked (Mongo.pull "b") (with_liked (Mongo.addToSet "b") alice)))
           bob).
  - vm_compute. reflexivity.
  - vm_compute. reflexivity.
  - vm_compute. left.
Defined.

(** ** The candidate feed *)

Lemma swap_Permutation {A} i j (l : list A) : Auth.swap i j l ≡ₚ l.
Proof.
  unfold Auth.swap.
  destruct (l !! i) as [x|] eqn:Hi; [| done].
  destruct (l !! j) as [y|] eqn:Hj; [| done].
  by apply Permutation_insert_swap.
Qed.

Lemma shuffleFrom_Permutation {A} i rnd k (l : list A) :
  Auth.shuffleFrom i rnd k l ≡ₚ l.
Proof.
  revert k l. induction i as [|i IH]; intros k l; simpl; [done |].
  rewrite IH. apply swap_Permutation.
Qed.

(** The shuffle rearranges its argument and nothing else. *)
Lemma shuffleArray_Permutation {A} rnd k (l : list A) :
  Auth.shuffleArray rnd k l ≡ₚ l.
Proof. apply shuffleFrom_Permutation. Qed.

(** A query returns stored documents that pass its filter. *)
Lemma elem_of_find P skip limit (db : Users) d :
  d ∈ Auth.find P skip limit db → db !! d.1 = Some d.2 ∧ P d = true.
Proof.
  unfold Auth.find. intros H.
  apply subseteq_take, subseteq_drop, list_elem_of_In, filter_In in H.
  destruct H as [H HP]. split; [| done].
  by apply elem_of_map_to_list', list_elem_of_In.
Qed.

(** The first page of a query holds every match when the limit is at least
    the size of the collection. *)
Lemma find_first_page P limit (db : Users) d :
  db !! d.1 = Some d.2 → P d = true → (Z.of_nat (size db) ≤ limit)%Z →
  d ∈ Auth.find P 0 limit db.
Proof.
  intros Hd HP Hsize. unfold Auth.find. simpl. rewrite drop_0.
  rewrite take_ge.
  - apply list_elem_of_In, filter_In. split; [| done].
    by apply list_elem_of_In, elem_of_map_to_list'.
  - etrans; [apply filter_length_le |].
    rewrite length_map_to_list. lia.
Qed.

Lemma feedFilter_excluded excludeIds genders d :
  Auth.feedFilter excludeIds genders d = true → d.1 ∉ excludeIds.
Proof.
  unfold Auth.feedFilter. rewrite !andb_true_iff, bool_decide_eq_true. tauto.
Qed.

(** C4: the feed of a requester holds neither the requester nor a member of
    the requester's liked or matches set; membership of the disliked set
    excludes nobody: a stored user who passes the filter of the feed and is in
    none of the three excluded groups is on the first page (with a limit that
    covers the collection), also when the requester has disliked that user. *)
Theorem allUsers_exclusion rnd currentUserId query_page query_limit
    (db : Users) currentUser feed :
  db !! currentUserId = Some currentUser →
  Auth.allUsers rnd currentUserId query_page query_limit db = Json 200 feed →
  (∀ c, c ∈ feed →
     Auth.cand_id c ≠ currentUserId ∧
     (Auth.cand_id c ∉ liked currentUser) ∧
     (Auth.cand_id c ∉ matches currentUser)) ∧
  (∀ i v,
     db !! i = Some v → i ∈ disliked currentUser →
     i ≠ currentUserId → i ∉ liked currentUser → i ∉ matches currentUser →
     name v ≠ Some "" → is_Some (dob v) → is_Some (interestedIn v) →
     Auth.genderIn (gender v) (Auth.genderFilter (interestedIn currentUser)) = true →
     Auth.orDefault query_page 1 = 1%Z →
     (Z.of_nat (size db) ≤ Auth.orDefault query_limit 10)%Z →
     ∃ c, c ∈ feed ∧ Auth.cand_id c = i).
Proof.
  intros Hcur. unfold Auth.allUsers, findById. rewrite Hcur.
  destruct (Z.ltb_spec ((Auth.orDefault query_page 1 - 1) * Auth.orDefault query_limit 10) 0)
    as [| Hskip]; [done |].
  intros [= <-]. split.
  - intros c (d & -> & Hd)%list_elem_of_fmap. simpl.
    assert (d.1 ∉ liked currentUser ++ matches currentUser ++ [currentUserId]) as Hex.
    { rewrite elem_of_app, !shuffleArray_Permutation in Hd.
      destruct Hd as [Hd | Hd];
        apply elem_of_find in Hd; destruct Hd as [_ Hd];
        apply andb_true_iff in Hd; destruct Hd as [Hd _];
        by apply feedFilter_excluded in Hd. }
    rewrite !not_elem_of_app, list_elem_of_singleton in Hex. tauto.
  - intros i v Hi _ Hne Hliked Hmatches Hname Hdob Hint Hgender Hpage Hlimit.
    exists (Auth.project (i, v)). split; [| done].
    apply list_elem_of_fmap. exists (i, v). split; [done |].
    rewrite Hpage. simpl.
    assert (Auth.feedFilter (liked currentUser ++ matches currentUser ++ [currentUserId])
              (Auth.genderFilter (interestedIn currentUser)) (i, v) = true) as Hfilter.
    { unfold Auth.feedFilter. simpl. rewrite Hgender.
      rewrite !andb_true_iff, !bool_decide_eq_true.
      rewrite !not_elem_of_app, list_elem_of_singleton. tauto. }
    apply elem_of_app. rewrite !shuffleArray_Permutation.
    destruct (profilePicture v) as [pic|] eqn:Hpic; [left | right];
      (apply find_first_page; [done | | done]);
      simpl; rewrite Hfilter, Hpic; done.
Qed.

(** C4 on the feed of Ann, whom the first page shows bob, a user she has
    disliked, and not carol, whom she has liked. *)
Lemma allUsers_exclusion_witness :
  Auth.allUsers (λ _, 0) "a" None None feedDb = Json 200 feedOfAnn ∧
  (∀ c, c ∈ feedOfAnn →
     Auth.cand_id c ≠ "a" ∧ (Auth.cand_id c ∉ ["c"]) ∧ (Auth.cand_id c ∉ [])) ∧
  (∃ c, c ∈ feedOfAnn ∧ Auth.cand_id c = "b").
Proof.
  assert (Auth.allUsers (λ _, 0) "a" None None feedDb = Json 200 feedOfAnn) as Hfeed
    by (vm_compute; reflexivity).
  destruct (allUsers_exclusion (λ _, 0) "a" None None feedDb
              (profile "ann@amity.edu" "Ann" Female InBoth ["c"] ["b"]) feedOfAnn)
    as [Hout Hin]; [vm_compute; reflexivity | exact Hfeed |].
  split; [exact Hfeed | split; [exact Hout |]].
  apply (Hin "b" (profile "bob@amity.edu" "Bob" Male InFemale [] [])).
  - vm_compute; reflexivity.
  - simpl. left.
  - done.
  - simpl. by intros [= ]%list_elem_of_singleton.
  - simpl. apply not_elem_of_nil.
  - done.
  - simpl. eauto.
  - simpl. eauto.
  - vm_compute; reflexivity.
  - reflexivity.
  - vm_compute. done.
Defined.

(** ** Pins and matches *)

Lemma keepsPins_refl db : keepsPins db db.
Proof. intros i u Hu. by exists u. Qed.

Lemma keepsPins_trans db1 db2 db3 :
  keepsPins db1 db2 → keepsPins db2 db3 → keepsPins db1 db3.
Proof.
  intros H12 H23 i u3 H3.
  destruct (H23 i u3 H3) as (u2 & H2 & Hp2 & Hm2).
  destruct (H12 i u2 H2) as (u1 & H1 & Hp1 & Hm1).
  exists u1. split; [done |]. split; [congruence | by etrans].
Qed.

Lemma keepsPins_insert (db : Users) i u u' :
  db !! i = Some u → pinnedMatches u' = pinnedMatches u → matches u ⊆ matches u' →
  keepsPins db (<[i := u']> db).
Proof.
  intros Hu Hp Hm j v Hv. destruct (decide (i = j)) as [<- | Hne].
  - rewrite lookup_insert_eq in Hv. injection Hv as <-. by exists u.
  - rewrite lookup_insert_ne in Hv by done. by exists v.
Qed.

Lemma keepsPins_update i f (db : Users) :
  (∀ u, pinnedMatches (f u) = pinnedMatches u ∧ matches u ⊆ matches (f u)) →
  keepsPins db (findByIdAndUpdate i f db).2.
Proof.
  intros Hf. unfold findByIdAndUpdate.
  destruct (db !! i) as [u|] eqn:Hu; simpl; [| apply keepsPins_refl].
  destruct (Hf u). by apply keepsPins_insert with u.
Qed.

Lemma keepsPins_inv db db' :
  keepsPins db db' → pinnedWithinMatches db → pinnedWithinMatches db'.
Proof.
  intros Hk Hinv i u' Hu'. destruct (Hk i u' Hu') as (u & Hu & -> & Hm).
  etrans; [by apply (Hinv i u) | done].
Qed.

Lemma subseteq_addToSet x l : l ⊆ Mongo.addToSet x l.
Proof. intros y Hy. apply elem_of_addToSet. by right. Qed.

Lemma keepsPins_matchUpdate i other (db : Users) :
  keepsPins db (findByIdAndUpdate i (Auth.matchUpdate other) db).2.
Proof. apply keepsPins_update. intros u. split; [done | apply subseteq_addToSet]. Qed.

Lemma keepsPins_updateActions i d t (db : Users) :
  keepsPins db (findByIdAndUpdate i (Auth.updateActions d t) db).2.
Proof.
  apply keepsPins_update. intros u. unfold Auth.updateActions.
  by case_decide.
Qed.

Lemma keepsPins_decSwipeLimit i (db : Users) :
  keepsPins db (findByIdAndUpdate i Auth.decSwipeLimit db).2.
Proof. by apply keepsPins_update. Qed.

Lemma keepsPins_connect c t (db : Users) : keepsPins db (Auth.connect c t db).
Proof.
  unfold Auth.connect.
  eapply keepsPins_trans; apply keepsPins_matchUpdate.
Qed.

Lemma keepsPins_swipe c t d (db : Users) : keepsPins db (Auth.swipe c t d db).2.
Proof.
  assert (∀ o db1, findByIdAndUpdate c (Auth.updateActions d t) db = (o, db1) →
            keepsPins db db1) as Hreg.
  { intros o db1 E. replace db1 with (findByIdAndUpdate c (Auth.updateActions d t) db).2
      by by rewrite E. apply keepsPins_updateActions. }
  unfold Auth.swipe, findById.
  repeat case_match; simpl; simplify_eq;
    try apply keepsPins_refl;
    try (eapply keepsPins_trans; [by eapply Hreg | apply keepsPins_decSwipeLimit]);
    try (by eapply Hreg).
  eapply keepsPins_trans; [apply keepsPins_connect | apply keepsPins_decSwipeLimit].
Qed.

Lemma keepsPins_spinwin c t w d (db : Users) :
  keepsPins db (Auth.spinwin c t w d db).2.
Proof.
  assert (∀ o db1, findByIdAndUpdate c (Auth.updateActions d t) db = (o, db1) →
            keepsPins db db1) as Hreg.
  { intros o db1 E. replace db1 with (findByIdAndUpdate c (Auth.updateActions d t) db).2
      by by rewrite E. apply keepsPins_updateActions. }
  assert (∀ o1 o2 db1 db2,
            findByIdAndUpdate c (Auth.matchUpdate t) db = (o1, db1) →
            findByIdAndUpdate t (Auth.matchUpdate c) db1 = (o2, db2) →
            keepsPins db db2) as Hwin.
  { intros o1 o2 db1 db2 E1 E2.
    replace db2 with (Auth.connect c t db); [apply keepsPins_connect |].
    unfold Auth.connect. rewrite E1. simpl. by rewrite E2. }
  unfold Auth.spinwin, findById.
  repeat case_match; simpl; simplify_eq;
    try apply keepsPins_refl; try apply keepsPins_connect;
    try (by eapply Hreg); by eapply Hwin.
Qed.

Lemma saveDocument_Some i doc (db db' : Users) :
  Auth.saveDocument i doc db = Some db' →
  Auth.validates doc = true ∧ db' = <[i := doc]> db.
Proof. unfold Auth.saveDocument. by case_match; intros [= <-]. Qed.

Lemma saveDocument_valid i doc (db : Users) :
  Auth.validates doc = true → Auth.saveDocument i doc db = Some (<[i := doc]> db).
Proof. unfold Auth.saveDocument. by intros ->. Qed.

Lemma keepsPins_connectUser c w (db : Users) :
  keepsPins db (Auth.connectUser c w db).2.
Proof.
  unfold Auth.connectUser, findById.
  repeat case_match; simpl; try apply keepsPins_refl.
  match goal with
  | H : Auth.saveDocument _ _ _ = Some _ |- _ => apply saveDocument_Some in H as [_ ->]
  end.
  eapply keepsPins_insert; [done | done |].
  intros y Hy. simpl. apply elem_of_app. by left.
Qed.

Lemma findOneByEmail_Some (db : Users) e i u :
  Auth.findOneByEmail db e = Some (i, u) → db !! i = Some u ∧ email u = e.
Proof.
  intros H. apply find_some in H. destruct H as [Hin He].
  apply list_elem_of_In, elem_of_map_to_list in Hin.
  by apply bool_decide_eq_true in He.
Qed.

Lemma dailyReset_fields now u :
  liked (Auth.dailyReset now u) = liked u ∧
  disliked (Auth.dailyReset now u) = disliked u ∧
  matches (Auth.dailyReset now u) = matches u ∧
  pinnedMatches (Auth.dailyReset now u) = pinnedMatches u.
Proof. unfold Auth.dailyReset. by repeat case_match. Qed.

Lemma keepsPins_login compare toDateString e p now (db : Users) :
  keepsPins db (Auth.login compare toDateString e p now db).2.
Proof.
  unfold Auth.login.
  destruct (bool_decide (e = "") || bool_decide (p = "")); [apply keepsPins_refl |].
  destruct (Auth.findOneByEmail db e) as [[i u]|] eqn:E; [| apply keepsPins_refl].
  apply findOneByEmail_Some in E. destruct E as [Hu _].
  destruct (negb (compare p (password u))); [apply keepsPins_refl |].
  destruct (negb (toDateString (lastLogin u) =? toDateString now)%string);
    simpl; [| apply keepsPins_refl].
  destruct (Auth.saveDocument _ _ _) as [db'|] eqn:Hs; simpl; [| apply keepsPins_refl].
  apply saveDocument_Some in Hs as [_ ->].
  destruct (dailyReset_fields now (loaded u)) as (_ & _ & Hm & Hp).
  apply keepsPins_insert with u; [done | by rewrite Hp | by rewrite Hm].
Qed.

(** C5, amended: every request keeps the pins of every user within that
    user's matches, a pin request provided that its target is one of the
    user's matches or is pinned already (and so is unpinned). *)
Theorem handle_keeps_pinnedWithinMatches compare toDateString r (db : Users) :
  pinnedWithinMatches db → pinsAMatch r db →
  pinnedWithinMatches (handle compare toDateString r db).
Proof.
  intros Hinv Hguard. destruct r as [e p now | c t d | c t w d | c w | c t]; simpl.
  - exact (keepsPins_inv _ _ (keepsPins_login _ _ _ _ _ _) Hinv).
  - exact (keepsPins_inv _ _ (keepsPins_swipe _ _ _ _) Hinv).
  - exact (keepsPins_inv _ _ (keepsPins_spinwin _ _ _ _ _) Hinv).
  - exact (keepsPins_inv _ _ (keepsPins_connectUser _ _ _) Hinv).
  - simpl in Hguard. unfold Auth.pinMatch, findById.
    case_decide; [done |].
    destruct (db !! c) as [u|] eqn:Hc; [| done].
    destruct (db !! t) as [ut|] eqn:Ht; [| done].
    destruct (Mongo.indexOf (pinnedMatches u) t) as [k|] eqn:Hk; simpl;
      (destruct (Auth.saveDocument _ _ _) as [db'|] eqn:Hs; simpl; [| done]);
      apply saveDocument_Some in Hs as [_ ->].
    + intros j v Hv. destruct (decide (c = j)) as [<- | Hne].
      * rewrite lookup_insert_eq in Hv. injection Hv as <-. simpl.
        intros y Hy%elem_of_splice1. by apply (Hinv c u).
      * rewrite lookup_insert_ne in Hv by done. by apply (Hinv j v).
    + intros j v Hv. destruct (decide (c = j)) as [<- | Hne].
      * rewrite lookup_insert_eq in Hv. injection Hv as <-. simpl.
        apply indexOf_None in Hk.
        destruct (Hguard u eq_refl) as [Hm | Hp]; [| done].
        intros y [Hy | ->%list_elem_of_singleton]%elem_of_app; [| done].
        by apply (Hinv c u).
      * rewrite lookup_insert_ne in Hv by done. by apply (Hinv j v).
Qed.

(** The invariant on a given collection, by evaluation. *)
Lemma pinnedWithinMatches_decide (db : Users) :
  bool_decide (map_Forall (λ _ u, pinnedMatches u ⊆ matches u) db) = true →
  pinnedWithinMatches db.
Proof. intros H. apply bool_decide_eq_true in H. exact H. Qed.

(** C5 fails on [/pin-match] as it is: alice, whose document passes the
    validators of the schema, has no match and pins bob; the request is
    answered with 200 and the pin is stored. *)
Lemma pinMatch_outside_matches :
  Auth.validates alice = true ∧
  pinnedWithinMatches db0 ∧
  statusCode (Auth.pinMatch "a" "b" db0).1 = 200%Z ∧
  ¬ pinnedWithinMatches (Auth.pinMatch "a" "b" db0).2.
Proof.
  split; [vm_compute; reflexivity |]. split; [| split].
  - apply pinnedWithinMatches_decide. vm_compute. reflexivity.
  - vm_compute. reflexivity.
  - intros H.
    assert ((Auth.pinMatch "a" "b" db0).2 !! "a"
            = Some (with_pinnedMatches (λ _, ["b"]) alice)) as Ha
      by (vm_compute; reflexivity).
    specialize (H "a" _ Ha "b"). simpl in H.
    apply (not_elem_of_nil "b"), H. left.
Qed.

(** C5, amended, on alice pinning her match bob. *)
Lemma handle_keeps_pinnedWithinMatches_witness :
  pinnedWithinMatches
    (handle (λ _ _, true) (λ _, "") (PutPinMatch "a" "b") dbMatched).
Proof.
  apply (handle_keeps_pinnedWithinMatches (λ _ _, true) (λ _, "")
           (PutPinMatch "a" "b") dbMatched).
  - apply pinnedWithinMatches_decide. vm_compute. reflexivity.
  - simpl. intros u Hu. vm_compute in Hu. injection Hu as <-. left. simpl. left.
Defined.

(** The validators read the email, the password, the username and the bio. *)
Lemma validates_ext u v :
  email u = email v → password u = password v → username u = username v →
  bio u = bio v → Auth.validates u = Auth.validates v.
Proof. unfold Auth.validates. by intros -> -> -> ->. Qed.

Lemma pinMatch_existing c t (db : Users) u ut :
  t ≠ "" → db !! c = Some u → db !! t = Some ut → Auth.validates u = true →
  (Auth.pinMatch c t db).2 = <[c := with_pinnedMatches (togglePin t) (loaded u)]> db ∧
  (Auth.pinMatch c t db).1
  = Json 200 (Auth.mkPinReply
                match Mongo.indexOf (pinnedMatches u) t with
                | Some _ => "Match unpinned successfully"
                | None => "Match pinned successfully"
                end
                (togglePin t (pinnedMatches u))).
Proof.
  intros Hne Hc Ht Hv. unfold Auth.pinMatch, findById, togglePin.
  rewrite decide_False, Hc, Ht by done.
  destruct (Mongo.indexOf (pinnedMatches u) t) eqn:Hi; cbv zeta;
    rewrite saveDocument_valid by (by rewrite <- Hv);
    unfold with_pinnedMatches; simpl; by rewrite Hi.
Qed.

Lemma pinMatch_invalid c t (db : Users) u ut :
  t ≠ "" → db !! c = Some u → db !! t = Some ut → Auth.validates u = false →
  Auth.pinMatch c t db = (Error 500 "Internal server error", db).
Proof.
  intros Hne Hc Ht Hv. unfold Auth.pinMatch, Auth.saveDocument, findById.
  rewrite decide_False, Hc, Ht by done.
  destruct (Mongo.indexOf (pinnedMatches u) t); cbv zeta;
    by replace (Auth.validates _) with false by (by rewrite <- Hv).
Qed.


Lemma occurrences_Permutation x l k : l ≡ₚ k → occurrences x l = occurrences x k.
Proof. unfold occurrences. by intros ->. Qed.

Lemma occurrences_cons x l : occurrences x (x :: l) = S (occurrences x l).
Proof. unfold occurrences. by rewrite filter_cons_True. Qed.






(** ** Connecting users *)

(** C10 fails when the caller names themselves as the winner: the request
    is answered with 200 (alice's document passes the validators of the
    schema), and the caller's own matches, empty before, hold the caller
    afterwards. *)
Lemma connectUser_self_changes_caller :
  Auth.validates alice = true ∧
  statusCode (Auth.connectUser (Some "a") "a" db0).1 = 200%Z ∧
  matches <$> db0 !! "a" = Some [] ∧
  matches <$> (Auth.connectUser (Some "a") "a" db0).2 !! "a" = Some ["a"].
Proof. vm_compute. done. Qed.

Lemma connectUser_existing (caller winner : ObjectId) (db : Users) (uc uw : User) :
  db !! caller = Some uc → db !! winner = Some uw →
  Auth.connectUser (Some caller) winner db
  = if decide (caller ∈ matches uw)
    then (Json 200 "User connected successfully", db)
    else if Auth.validates uw
    then (Json 200 "User connected successfully",
          <[winner := with_matches (λ m, m ++ [caller]) (loaded uw)]> db)
    else (Error 500 "Server error", db).
Proof.
  intros Hc Hw. unfold Auth.connectUser, Auth.saveDocument, findById. rewrite Hw, Hc.
  unfold Mongo.includes. destruct (decide (caller ∈ matches uw)) as [Hin | Hout].
  - by rewrite bool_decide_eq_true_2.
  - rewrite bool_decide_eq_false_2 by done. simpl.
    replace (Auth.validates (with_matches _ (loaded uw))) with (Auth.validates uw)
      by by apply validates_ext.
    by destruct (Auth.validates uw).
Qed.

(** C10, amended: for an existing caller and an existing winner other than
    the caller, the request succeeds exactly if the caller is in the
    winner's matches already or the winner's document passes the validators
    of the schema; when it succeeds it rewrites the winner's matches only
    (the caller is appended unless present): the winner's liked, disliked and
    pinnedMatches, the caller's document and every other document are as
    before, so the caller is in the winner's matches and the winner in the
    caller's only if it was.  When it does not succeed the collection is as
    before. *)
Theorem connectUser_frame (caller winner : ObjectId) (db : Users) (uc uw : User) :
  db !! caller = Some uc → db !! winner = Some uw → caller ≠ winner →
  (statusCode (Auth.connectUser (Some caller) winner db).1 = 200%Z
   ↔ caller ∈ matches uw ∨ Auth.validates uw = true) ∧
  (statusCode (Auth.connectUser (Some caller) winner db).1 = 200%Z →
   ∃ uw',
    (Auth.connectUser (Some caller) winner db).1 = Json 200 "User connected successfully" ∧
    (Auth.connectUser (Some caller) winner db).2 !! winner = Some uw' ∧
    matches uw' = (if decide (caller ∈ matches uw) then matches uw
                   else matches uw ++ [caller]) ∧
    caller ∈ matches uw' ∧
    liked uw' = liked uw ∧ disliked uw' = disliked uw ∧
    pinnedMatches uw' = pinnedMatches uw ∧
    (Auth.connectUser (Some caller) winner db).2 !! caller = Some uc ∧
    (∀ j, j ≠ winner → (Auth.connectUser (Some caller) winner db).2 !! j = db !! j)) ∧
  (statusCode (Auth.connectUser (Some caller) winner db).1 ≠ 200%Z →
   Auth.connectUser (Some caller) winner db = (Error 500 "Server error", db)).
Proof.
  intros Hc Hw Hne. rewrite (connectUser_existing caller winner db uc uw Hc Hw).
  destruct (decide (caller ∈ matches uw)) as [Hin | Hout];
    [| destruct (Auth.validates uw) eqn:Hv]; simpl.
  - split; [by split; [left |] |]. split; [| done].
    intros _. exists uw. by repeat split.
  - split; [by split; [right |] |]. split; [| done].
    intros _. eexists. rewrite lookup_insert_eq. repeat split; simpl.
    + apply elem_of_app. right. left.
    + by rewrite lookup_insert_ne.
    + intros j Hj. by rewrite lookup_insert_ne.
  - split; [| by split].
    split; [done |]. by intros [? | ?].
Qed.

(** C10, amended, on a token whose payload names alice by [_id] and the
    winner bob: the request succeeds, alice joins bob's matches, and bob does
    not join hers. *)
Lemma connectUser_frame_witness :
  statusCode (Auth.connectUser (Some "a") "b" db0).1 = 200%Z ∧
  ∃ uw',
    (Auth.connectUser (Some "a") "b" db0).2 !! "b" = Some uw' ∧
    "a" ∈ matches uw' ∧
    (Auth.connectUser (Some "a") "b" db0).2 !! "a" = Some alice ∧
    "b" ∉ matches alice.
Proof.
  destruct (connectUser_frame "a" "b" db0 alice bob) as (Hok & Hframe & _).
  - vm_compute. reflexivity.
  - vm_compute. reflexivity.
  - discriminate.
  - assert (statusCode (Auth.connectUser (Some "a") "b" db0).1 = 200%Z) as H200
      by (apply Hok; right; vm_compute; reflexivity).
    split; [exact H200 |].
    destruct (Hframe H200) as (uw' & _ & Hw & _ & Hin & _ & _ & _ & Ha & _).
    exists uw'. split; [exact Hw |]. split; [exact Hin |]. split; [exact Ha |].
    simpl. apply not_elem_of_nil.
Defined.

(** ** Login *)

Lemma dailyReset_limits now u :
  swipeLimit (Auth.dailyReset now u) = Z.max (swipeLimit u) 20 ∧
  spinLimit (Auth.dailyReset now u) = Z.max (spinLimit u) 1 ∧
  lastLogin (Auth.dailyReset now u) = now.
Proof.
  unfold Auth.dailyReset.
  destruct (Z.ltb_spec (swipeLimit u) 20); simpl;
    destruct (Z.ltb_spec (spinLimit u) 1); simpl; lia.
Qed.

(** What [/login] does on the first login of a calendar date, after the
    password check: the reset is stored if the document passes the
    validators of the schema, and the request fails otherwise. *)
Lemma login_new_day (compare : string → string → bool) (toDateString : Z → string)
    (e p : string) (now : Z) (db : Users) (i : ObjectId) (u : User) :
  e ≠ "" → p ≠ "" →
  Auth.findOneByEmail db e = Some (i, u) → compare p (password u) = true →
  toDateString (lastLogin u) ≠ toDateString now →
  Auth.login compare toDateString e p now db
  = if Auth.validates u
    then (Json 200 (Auth.mkLoginReply "Login successful" i (username u) i
                      (swipeLimit (Auth.dailyReset now (loaded u)))
                      (spinLimit (Auth.dailyReset now (loaded u)))),
          <[i := Auth.dailyReset now (loaded u)]> db)
    else (Error 500 "Internal server error", db).
Proof.
  intros He Hp Hfind Hpw Hneq. unfold Auth.login, Auth.saveDocument.
  rewrite !bool_decide_eq_false_2 by done. simpl.
  rewrite Hfind, Hpw. simpl.
  destruct (String.eqb_spec (toDateString (lastLogin u)) (toDateString now)); [done |].
  cbv zeta. simpl negb. cbv iota.
  replace (Auth.validates (Auth.dailyReset now (loaded u))) with (Auth.validates u)
    by (apply validates_ext; unfold Auth.dailyReset; by repeat case_match).
  destruct (Auth.validates u); [| done].
  do 3 f_equal. unfold Auth.dailyReset. by repeat case_match.
Qed.

Lemma login_same_day (compare : string → string → bool) (toDateString : Z → string)
    (e p : string) (now : Z) (db : Users) (i : ObjectId) (u : User) :
  e ≠ "" → p ≠ "" →
  Auth.findOneByEmail db e = Some (i, u) → compare p (password u) = true →
  toDateString (lastLogin u) = toDateString now →
  Auth.login compare toDateString e p now db
  = (Json 200 (Auth.mkLoginReply "Login successful" i (username u) i
                 (swipeLimit u) (spinLimit u)), db).
Proof.
  intros He Hp Hfind Hpw Heq. unfold Auth.login.
  rewrite !bool_decide_eq_false_2 by done. simpl.
  rewrite Hfind, Hpw. simpl.
  by destruct (String.eqb_spec (toDateString (lastLogin u)) (toDateString now)).
Qed.

(** C9: a login with the password of the account, on a calendar date other
    than that of the stored lastLogin, succeeds exactly if the stored
    document passes the validators of the schema; when it succeeds it raises
    swipeLimit to at least 20 and spinLimit to at least 1, stores the
    clock's reading as lastLogin and answers with the two limits as stored;
    when it does not, the collection is left as it is.  On the same calendar
    date the login succeeds and the collection is left as it is. *)
Theorem login_daily_reset (compare : string → string → bool) (toDateString : Z → string)
    (e p : string) (now : Z) (db : Users) (i : ObjectId) (u : User) :
  e ≠ "" → p ≠ "" →
  Auth.findOneByEmail db e = Some (i, u) → compare p (password u) = true →
  db !! i = Some u ∧
  (toDateString (lastLogin u) ≠ toDateString now →
     (statusCode (Auth.login compare toDateString e p now db).1 = 200%Z
      ↔ Auth.validates u = true) ∧
     (statusCode (Auth.login compare toDateString e p now db).1 = 200%Z →
      ∃ u',
        (Auth.login compare toDateString e p now db).2 = <[i := u']> db ∧
        swipeLimit u' = Z.max (swipeLimit u) 20 ∧
        spinLimit u' = Z.max (spinLimit u) 1 ∧
        lastLogin u' = now ∧
        (Auth.login compare toDateString e p now db).1
        = Json 200 (Auth.mkLoginReply "Login successful" i (username u) i
                      (swipeLimit u') (spinLimit u'))) ∧
     (statusCode (Auth.login compare toDateString e p now db).1 ≠ 200%Z →
      Auth.login compare toDateString e p now db
      = (Error 500 "Internal server error", db))) ∧
  (toDateString (lastLogin u) = toDateString now →
     statusCode (Auth.login compare toDateString e p now db).1 = 200%Z ∧
     (Auth.login compare toDateString e p now db).2 = db).
Proof.
  intros He Hp Hfind Hpw.
  destruct (findOneByEmail_Some db e i u Hfind) as [Hu _].
  split; [done |]. split.
  - intros Hneq. rewrite (login_new_day _ _ _ _ _ _ _ _ He Hp Hfind Hpw Hneq).
    destruct (Auth.validates u); simpl.
    + split; [done |]. split; [| done]. intros _.
      exists (Auth.dailyReset now (loaded u)). split; [done |].
      destruct (dailyReset_limits now (loaded u)) as (? & ? & ?). by repeat split.
    + split; [by split |]. by split.
  - intros Heq. by rewrite (login_same_day _ _ _ _ _ _ _ _ He Hp Hfind Hpw Heq).
Qed.

(** C9 on alice, registered on the first day with 10 swipes and 5 spins,
    who logs in on the second: the login succeeds and stores 20 swipes and 5
    spins. *)
Lemma login_daily_reset_witness :
  statusCode (Auth.login compareEx utcDay "alice@amity.edu" "h1" 86400000 db0).1 = 200%Z ∧
  ∃ u',
    (Auth.login compareEx utcDay "alice@amity.edu" "h1" 86400000 db0).2
      = <["a" := u']> db0 ∧
    swipeLimit u' = 20%Z ∧ spinLimit u' = 5%Z ∧ lastLogin u' = 86400000%Z.
Proof.
  destruct (login_daily_reset compareEx utcDay "alice@amity.edu" "h1"
              86400000 db0 "a" alice) as (_ & Hnew & _).
  - discriminate.
  - discriminate.
  - vm_compute. reflexivity.
  - vm_compute. reflexivity.
  - destruct Hnew as (Hok & Hreset & _); [vm_compute; discriminate |].
    assert (statusCode (Auth.login compareEx utcDay "alice@amity.edu" "h1"
                          86400000 db0).1 = 200%Z) as H200
      by (apply Hok; vm_compute; reflexivity).
    split; [exact H200 |].
    destruct (Hreset H200) as (u' & Hdb & Hsw & Hsp & Hll & _).
    exists u'. split; [exact Hdb |]. split; [exact Hsw |]. split; [exact Hsp |].
    exact Hll.
Defined.

(** ** The chat store *)

Lemma bothParticipate_comm a b c :
  ChatRoutes.bothParticipate a b c = ChatRoutes.bothParticipate b a c.
Proof. unfold ChatRoutes.bothParticipate. apply andb_comm. Qed.

Lemma bothParticipate_new a b n t :
  ChatRoutes.bothParticipate a b (ChatRoutes.mkChat n [a; b] [] t) = true.
Proof.
  unfold ChatRoutes.bothParticipate. simpl.
  rewrite !bool_decide_eq_true_2; [done | right; left | left].
Qed.

(** A document appended to a collection in which nothing matches is the one
    the next query finds. *)
Lemma findOne_app_new P (chats : list ChatRoutes.Chat) c :
  ChatRoutes.findOne P chats = None → P c = true →
  ChatRoutes.findOne P (chats ++ [c]) = Some c.
Proof.
  unfold ChatRoutes.findOne. induction chats as [|d chats IH]; simpl; intros Hnone Hc.
  - by rewrite Hc.
  - destruct (P d); [done | by apply IH].
Qed.

Lemma findOne_ext P Q (chats : list ChatRoutes.Chat) :
  (∀ c, P c = Q c) → ChatRoutes.findOne P chats = ChatRoutes.findOne Q chats.
Proof.
  intros H. unfold ChatRoutes.findOne.
  induction chats as [|d chats IH]; simpl; [done |]. by rewrite H, IH.
Qed.

(** Once a chat of the pair is stored, a start request of either of the two
    answers with the first such chat and stores nothing. *)
Lemma start_existing isValid a b n t (chats : list ChatRoutes.Chat) chat :
  isValid b = true →
  ChatRoutes.findOne (ChatRoutes.bothParticipate a b) chats = Some chat →
  ChatRoutes.start isValid a b n t chats = (Json 200 chat, chats).
Proof. intros Hb Hf. unfold ChatRoutes.start. by rewrite Hb, Hf. Qed.

(** C6: for two users with valid ids, a start request of A for B, a second
    one, and a third by B for A answer with the same chat document (and so
    the same chat id), whatever ids and clock readings the second and third
    are offered; after the first request the collection does not change. *)
Theorem start_idempotent (isValid : ObjectId → bool) (A B n1 n2 n3 : ObjectId)
    (t1 t2 t3 : Z) (chats : list ChatRoutes.Chat) :
  isValid A = true → isValid B = true →
  ∃ chat,
    (ChatRoutes.start isValid A B n1 t1 chats).1 = Json 200 chat ∧
    ChatRoutes.start isValid A B n2 t2 (ChatRoutes.start isValid A B n1 t1 chats).2
      = (Json 200 chat, (ChatRoutes.start isValid A B n1 t1 chats).2) ∧
    ChatRoutes.start isValid B A n3 t3 (ChatRoutes.start isValid A B n1 t1 chats).2
      = (Json 200 chat, (ChatRoutes.start isValid A B n1 t1 chats).2).
Proof.
  intros HA HB.
  assert (∃ chat,
            (ChatRoutes.start isValid A B n1 t1 chats).1 = Json 200 chat ∧
            ChatRoutes.findOne (ChatRoutes.bothParticipate A B)
              (ChatRoutes.start isValid A B n1 t1 chats).2 = Some chat)
    as (chat & Hreply & Hfound).
  { unfold ChatRoutes.start. rewrite HB. simpl.
    destruct (ChatRoutes.findOne (ChatRoutes.bothParticipate A B) chats)
      as [chat|] eqn:Hf; simpl.
    - by exists chat.
    - eexists. split; [done |].
      apply findOne_app_new; [done | apply bothParticipate_new]. }
  exists chat. split; [done |]. split.
  - by apply start_existing.
  - apply start_existing; [done |].
    rewrite <- Hfound. apply findOne_ext. intros c. apply bothParticipate_comm.
Qed.

(** C6 on an empty collection: the chat the first request creates under the
    id it is offered is the answer to all three. *)
Lemma start_idempotent_witness :
  ∃ chat,
    (ChatRoutes.start is24 idA idB "c1" 5 []).1 = Json 200 chat ∧
    ChatRoutes.start is24 idA idB "c2" 6 (ChatRoutes.start is24 idA idB "c1" 5 []).2
      = (Json 200 chat, (ChatRoutes.start is24 idA idB "c1" 5 []).2) ∧
    ChatRoutes.start is24 idB idA "c3" 7 (ChatRoutes.start is24 idA idB "c1" 5 []).2
      = (Json 200 chat, (ChatRoutes.start is24 idA idB "c1" 5 []).2).
Proof.
  apply (start_idempotent is24 idA idB "c1" "c2" "c3" 5 6 7 []); reflexivity.
Defined.

Lemma trimStart_blank s :
  (∀ c, c ∈ s → ChatRoutes.isWhiteSpace c = true) → ChatRoutes.trimStart s = [].
Proof.
  induction s as [|c s IH]; simpl; intros H; [done |].
  rewrite (H c) by left. apply IH. intros d Hd. apply H. by right.
Qed.

Lemma trimStart_nil s :
  ChatRoutes.trimStart s = [] → ∀ c, c ∈ s → ChatRoutes.isWhiteSpace c = true.
Proof.
  induction s as [|c s IH]; simpl; intros H d Hd.
  - by apply elem_of_nil in Hd.
  - destruct (ChatRoutes.isWhiteSpace c) eqn:Hc; [| done].
    apply elem_of_cons in Hd as [-> | Hd]; [done | by apply IH].
Qed.

Lemma trimStart_head s c s' :
  ChatRoutes.trimStart s = c :: s' → ChatRoutes.isWhiteSpace c = false.
Proof.
  induction s as [|d s IH]; simpl; [done |].
  destruct (ChatRoutes.isWhiteSpace d) eqn:Hd; [done |]. by intros [= -> _].
Qed.

(** [trim] leaves nothing exactly of the strings of white space. *)
Lemma trim_nil_iff s :
  ChatRoutes.trim s = [] ↔ ∀ c, c ∈ s → ChatRoutes.isWhiteSpace c = true.
Proof.
  unfold ChatRoutes.trim, ChatRoutes.trimEnd. split.
  - intros H. apply trimStart_nil.
    destruct (ChatRoutes.trimStart s) as [|c s'] eqn:Hs; [done |].
    apply (f_equal (@rev N)) in H. rewrite rev_involutive in H. simpl in H.
    pose proof (trimStart_nil _ H c) as Hc.
    rewrite (trimStart_head _ _ _ Hs) in Hc.
    discriminate Hc. apply elem_of_app. right. left.
  - intros H. by rewrite (trimStart_blank s H).
Qed.

(** C7: a message whose content is empty or white space only is refused as
    a validation error (status 400), and the collection of chats is left as
    it was: no chat gains a message or a new lastMessageAt. *)
Theorem postMessage_blank (isValid : ObjectId → bool) (chatId userId : ObjectId)
    (body_content : ChatRoutes.JSString) (now nowCast : Z)
    (chats : list ChatRoutes.Chat) :
  (∀ c, c ∈ body_content → ChatRoutes.isWhiteSpace c = true) →
  ChatRoutes.errorKind (ChatRoutes.postMessage isValid chatId userId body_content now nowCast chats).1
    = Some ChatRoutes.ValidationError ∧
  (ChatRoutes.postMessage isValid chatId userId body_content now nowCast chats).2 = chats.
Proof.
  intros Hblank. unfold ChatRoutes.postMessage.
  destruct (isValid chatId); simpl; [| done].
  apply trim_nil_iff in Hblank. rewrite Hblank. done.
Qed.

(** C7 on a space, a tab and a no-break space sent to an existing chat by
    one of its participants. *)
Lemma postMessage_blank_witness :
  ChatRoutes.errorKind (ChatRoutes.postMessage is24 "64b7f0a1c2d3e4f5a6b7c8ff" idA
               [32; 9; 160]%N 7 8 [chatAB]).1 = Some ChatRoutes.ValidationError ∧
  (ChatRoutes.postMessage is24 "64b7f0a1c2d3e4f5a6b7c8ff" idA
     [32; 9; 160]%N 7 8 [chatAB]).2 = [chatAB].
Proof.
  apply (postMessage_blank is24 "64b7f0a1c2d3e4f5a6b7c8ff" idA [32; 9; 160]%N 7 8 [chatAB]).
  intros c Hc.
  repeat (apply elem_of_cons in Hc; destruct Hc as [-> | Hc]; [vm_compute; reflexivity |]).
  by apply elem_of_nil in Hc.
Defined.

(** * Further properties *)

(** ** Stores related document by document *)

Section Stepwise.

Variable P : ObjectId → User → User → Prop.
Hypothesis P_refl : ∀ i u, P i u u.
Hypothesis P_trans : ∀ i u v w, P i u v → P i v w → P i u w.

Lemma stepwise_refl (db : Users) : stepwise P db db.
Proof. intros i. destruct (db !! i); constructor. apply P_refl. Qed.

Lemma stepwise_trans (db1 db2 db3 : Users) :
  stepwise P db1 db2 → stepwise P db2 db3 → stepwise P db1 db3.
Proof.
  intros H12 H23 i. specialize (H12 i). specialize (H23 i).
  destruct H12 as [u v Huv|]; inversion H23; subst; constructor.
  by apply P_trans with v.
Qed.

Lemma stepwise_insert (db : Users) i u u' :
  db !! i = Some u → P i u u' → stepwise P db (<[i := u']> db).
Proof.
  intros Hu HP j. destruct (decide (i = j)) as [<- | Hne].
  - rewrite lookup_insert_eq, Hu. by constructor.
  - rewrite lookup_insert_ne by done. destruct (db !! j); constructor. apply P_refl.
Qed.

Lemma stepwise_update i f (db : Users) :
  (∀ u, P i u (f u)) → stepwise P db (findByIdAndUpdate i f db).2.
Proof.
  intros Hf. unfold findByIdAndUpdate.
  destruct (db !! i) as [u|] eqn:Hu; simpl; [| apply stepwise_refl].
  by apply stepwise_insert with u.
Qed.

Lemma stepwise_connect a t (db : Users) :
  (∀ u, P a u (Auth.matchUpdate t u)) → (∀ u, P t u (Auth.matchUpdate a u)) →
  stepwise P db (Auth.connect a t db).
Proof.
  intros Ha Ht. unfold Auth.connect.
  apply stepwise_trans with (findByIdAndUpdate a (Auth.matchUpdate t) db).2;
    by apply stepwise_update.
Qed.

Lemma stepwise_swipe a t d (db : Users) :
  (∀ u, P a u (Auth.matchUpdate t u)) → (∀ u, P t u (Auth.matchUpdate a u)) →
  (∀ u, P a u (Auth.updateActions d t u)) → (∀ u, P a u (Auth.decSwipeLimit u)) →
  stepwise P db (Auth.swipe a t d db).2.
Proof.
  intros Hm1 Hm2 Hu Hd.
  assert (stepwise P db
            (findByIdAndUpdate a Auth.decSwipeLimit
               (findByIdAndUpdate a (Auth.updateActions d t) db).2).2) as Hreg
    by (apply stepwise_trans with (findByIdAndUpdate a (Auth.updateActions d t) db).2;
        by apply stepwise_update).
  assert (stepwise P db
            (findByIdAndUpdate a Auth.decSwipeLimit (Auth.connect a t db)).2) as Hmut
    by (apply stepwise_trans with (Auth.connect a t db);
        [by apply stepwise_connect | by apply stepwise_update]).
  unfold Auth.swipe, findById.
  destruct (negb (bool_decide (d ∈ ["left"; "right"]))); [apply stepwise_refl |].
  assert (stepwise P db
            (match findByIdAndUpdate a (Auth.updateActions d t) db with
             | (None, db1) => (Error 404 "User not found", db1)
             | (Some _, db1) =>
                 (Json 200 (Auth.mkSwipeReply ("Swiped " ++ d)%string false),
                  (findByIdAndUpdate a Auth.decSwipeLimit db1).2)
             end).2) as Hregular.
  { pose proof (stepwise_update a (Auth.updateActions d t) db Hu) as Hup.
    by destruct (findByIdAndUpdate a (Auth.updateActions d t) db) as [[u'|] db1]. }
  destruct (decide (d = "right")); [| exact Hregular].
  destruct (db !! t) as [ut|]; [| apply stepwise_refl].
  destruct (Mongo.includes (liked ut) a); [exact Hmut | exact Hregular].
Qed.

Lemma stepwise_spinwin a t w d (db : Users) :
  (∀ u, P a u (Auth.matchUpdate t u)) → (∀ u, P t u (Auth.matchUpdate a u)) →
  (∀ u, P a u (Auth.updateActions d t u)) →
  stepwise P db (Auth.spinwin a t w d db).2.
Proof.
  intros Hm1 Hm2 Hu.
  pose proof (stepwise_connect a t db Hm1 Hm2) as Hcon.
  unfold Auth.spinwin, findById. destruct w.
  - unfold Auth.connect in Hcon.
    destruct (findByIdAndUpdate a (Auth.matchUpdate t) db) as [o1 db1]; simpl in Hcon.
    destruct (findByIdAndUpdate t (Auth.matchUpdate a) db1) as [o2 db2]; simpl in Hcon.
    by destruct o1, o2.
  - destruct (negb (bool_decide (d ∈ ["left"; "right"]))); [apply stepwise_refl |].
    assert (stepwise P db
              (match findByIdAndUpdate a (Auth.updateActions d t) db with
               | (None, db1) => (Error 404 "User not found", db1)
               | (Some _, db1) =>
                   (Json 200 (Auth.mkSwipeReply ("Swiped " ++ d)%string false), db1)
               end).2) as Hregular.
    { pose proof (stepwise_update a (Auth.updateActions d t) db Hu) as H.
      by destruct (findByIdAndUpdate a (Auth.updateActions d t) db) as [[u'|] db1]. }
    destruct (decide (d = "right")); [| exact Hregular].
    destruct (db !! t) as [ut|]; [| apply stepwise_refl].
    destruct (Mongo.includes (liked ut) a); [exact Hcon | exact Hregular].
Qed.

(** A document that is loaded, modified and saved: the stored document is
    replaced by the modified one, or the collection is left as it is. *)
Lemma stepwise_saveDocument i f (db : Users) u db' :
  (∀ u, P i u (loaded u)) → (∀ u, P i u (f u)) →
  db !! i = Some u → Auth.saveDocument i (f (loaded u)) db = Some db' →
  stepwise P db db'.
Proof.
  intros Hload Hf Hu [_ ->]%saveDocument_Some.
  apply stepwise_insert with u; [done |]. by apply P_trans with (loaded u).
Qed.

Lemma stepwise_connectUser c w (db : Users) :
  (∀ u, P w u (loaded u)) →
  (∀ x u, P w u (with_matches (λ m, m ++ [x]) u)) →
  stepwise P db (Auth.connectUser c w db).2.
Proof.
  intros Hload Hpush. unfold Auth.connectUser, findById.
  destruct c as [c|]; [| apply stepwise_refl].
  destruct (db !! w) as [uw|] eqn:Hw; [| apply stepwise_refl].
  destruct (db !! c) as [uc|]; [| apply stepwise_refl].
  destruct (negb (Mongo.includes (matches uw) c)); simpl; [| apply stepwise_refl].
  destruct (Auth.saveDocument _ _ _) as [db'|] eqn:Hs; simpl; [| apply stepwise_refl].
  by apply (stepwise_saveDocument w (with_matches (λ m, m ++ [c])) db uw).
Qed.

Lemma stepwise_pinMatch c t (db : Users) :
  (∀ u, P c u (loaded u)) →
  (∀ f u, P c u (with_pinnedMatches f u)) →
  stepwise P db (Auth.pinMatch c t db).2.
Proof.
  intros Hload Hpin. unfold Auth.pinMatch, findById.
  case_decide; [apply stepwise_refl |].
  destruct (db !! c) as [uc|] eqn:Hc; [| apply stepwise_refl].
  destruct (db !! t) as [ut|]; [| apply stepwise_refl].
  destruct (Mongo.indexOf (pinnedMatches uc) t) as [k|]; cbv zeta.
  - destruct (Auth.saveDocument _ _ _) as [db'|] eqn:Hs; simpl; [| apply stepwise_refl].
    by apply (stepwise_saveDocument c (with_pinnedMatches (Mongo.splice1 k)) db uc).
  - destruct (Auth.saveDocument _ _ _) as [db'|] eqn:Hs; simpl; [| apply stepwise_refl].
    by apply (stepwise_saveDocument c (with_pinnedMatches (λ p, p ++ [t])) db uc).
Qed.

Lemma stepwise_login compare toDateString e p now (db : Users) :
  (∀ i u, P i u (loaded u)) →
  (∀ i u, P i u (Auth.dailyReset now u)) →
  stepwise P db (Auth.login compare toDateString e p now db).2.
Proof.
  intros Hload Hreset. unfold Auth.login.
  destruct (bool_decide (e = "") || bool_decide (p = "")); [apply stepwise_refl |].
  destruct (Auth.findOneByEmail db e) as [[i u]|] eqn:E; [| apply stepwise_refl].
  apply findOneByEmail_Some in E. destruct E as [Hu _].
  destruct (negb (compare p (password u))); [apply stepwise_refl |].
  destruct (negb (toDateString (lastLogin u) =? toDateString now)%string);
    cbv zeta; [| apply stepwise_refl].
  destruct (Auth.saveDocument _ _ _) as [db'|] eqn:Hs; simpl; [| apply stepwise_refl].
  by apply (stepwise_saveDocument i (Auth.dailyReset now) db u).
Qed.

(** A relation that every update of the handlers respects holds between the
    collection before and after any request. *)
Lemma stepwise_handle compare toDateString r (db : Users) :
  (∀ i x u, P i u (Auth.matchUpdate x u)) →
  (∀ i d x u, P i u (Auth.updateActions d x u)) →
  (∀ i u, P i u (Auth.decSwipeLimit u)) →
  (∀ i x u, P i u (with_matches (λ m, m ++ [x]) u)) →
  (∀ i f u, P i u (with_pinnedMatches f u)) →
  (∀ i now u, P i u (Auth.dailyReset now u)) →
  (∀ i u, P i u (loaded u)) →
  stepwise P db (handle compare toDateString r db).
Proof.
  intros Hm Hu Hd Hc Hp Hl Hload.
  destruct r as [e p now | a t d | a t w d | c w | c t]; simpl.
  - by apply stepwise_login.
  - by apply stepwise_swipe.
  - by apply stepwise_spinwin.
  - by apply stepwise_connectUser.
  - by apply stepwise_pinMatch.
Qed.

End Stepwise.

(** ** Swipes, case by case *)

Lemma stepwise_Some_l P (db db' : Users) i u :
  stepwise P db db' → db !! i = Some u → ∃ u', db' !! i = Some u' ∧ P i u u'.
Proof. intros H Hu. specialize (H i). rewrite Hu in H. inversion H. eauto. Qed.

Lemma stepwise_Some_r P (db db' : Users) i u' :
  stepwise P db db' → db' !! i = Some u' → ∃ u, db !! i = Some u ∧ P i u u'.
Proof. intros H Hu. specialize (H i). rewrite Hu in H. inversion H. eauto. Qed.

Lemma direction_left_or_right (d : string) :
  bool_decide (d ∈ ["left"; "right"]) = true → d = "left" ∨ d = "right".
Proof.
  intros H. apply bool_decide_eq_true in H.
  apply elem_of_cons in H. destruct H as [-> | H]; [by left |].
  apply list_elem_of_singleton in H. by right.
Qed.

(** The three ways a swipe ends: refused with the collection as it was, a
    one-sided swipe that rewrites the document of the actor, or a match. *)
Lemma swipe_cases a t d (db : Users) :
  (∃ c m, Auth.swipe a t d db = (Error c m, db)) ∨
  (∃ ua, db !! a = Some ua ∧
     (d = "left" ∨ (d = "right" ∧ ∃ ut, db !! t = Some ut ∧ a ∉ liked ut)) ∧
     Auth.swipe a t d db =
       (Json 200 (Auth.mkSwipeReply ("Swiped " ++ d)%string false),
        <[a := Auth.decSwipeLimit (Auth.updateActions d t ua)]> db)) ∨
  (d = "right" ∧ ∃ ut, db !! t = Some ut ∧ a ∈ liked ut ∧
     Auth.swipe a t d db =
       (Json 200 (Auth.mkSwipeReply "Matched! Connection created." true),
        (findByIdAndUpdate a Auth.decSwipeLimit (Auth.connect a t db)).2)).
Proof.
  unfold Auth.swipe, findById.
  destruct (bool_decide (d ∈ ["left"; "right"])) eqn:Hd; simpl; [| left; eauto].
  apply direction_left_or_right in Hd.
  assert (∀ side : d = "left" ∨ (d = "right" ∧ ∃ ut, db !! t = Some ut ∧ a ∉ liked ut),
    (∃ c m,
       match findByIdAndUpdate a (Auth.updateActions d t) db with
       | (None, db1) => (Error 404 "User not found", db1)
       | (Some _, db1) =>
           (Json 200 (Auth.mkSwipeReply ("Swiped " ++ d)%string false),
            (findByIdAndUpdate a Auth.decSwipeLimit db1).2)
       end = (@Error Auth.SwipeReply c m, db)) ∨
    (∃ ua, db !! a = Some ua ∧
       (d = "left" ∨ (d = "right" ∧ ∃ ut, db !! t = Some ut ∧ a ∉ liked ut)) ∧
       match findByIdAndUpdate a (Auth.updateActions d t) db with
       | (None, db1) => (Error 404 "User not found", db1)
       | (Some _, db1) =>
           (Json 200 (Auth.mkSwipeReply ("Swiped " ++ d)%string false),
            (findByIdAndUpdate a Auth.decSwipeLimit db1).2)
       end =
       (Json 200 (Auth.mkSwipeReply ("Swiped " ++ d)%string false),
        <[a := Auth.decSwipeLimit (Auth.updateActions d t ua)]> db))) as Hregular.
  { intros side. unfold findByIdAndUpdate.
    destruct (db !! a) as [ua|] eqn:Ha; [right | left; eauto].
    exists ua. split; [done |]. split; [done |].
    rewrite lookup_insert_eq. simpl. by rewrite insert_insert_eq. }
  destruct (decide (d = "right")) as [-> | Hnr].
  - destruct (db !! t) as [ut|] eqn:Ht; [| left; eauto].
    destruct (Mongo.includes (liked ut) a) eqn:Hin.
    + right. right. split; [done |]. exists ut. apply includes_true in Hin. eauto.
    + apply includes_false in Hin.
      destruct (Hregular (or_intror (conj eq_refl (ex_intro _ ut (conj eq_refl Hin)))))
        as [H | H]; [by left | right; by left].
  - destruct Hd as [-> | ->]; [| done].
    destruct (Hregular (or_introl eq_refl)) as [H | H]; [by left | right; by left].
Qed.

(** X1: a right swipe of an existing actor on an existing target who has not
    liked the actor answers without a match and rewrites the document of the
    actor only: the target joins liked and leaves disliked, swipeLimit drops
    by one, and matches and pins stay as they are (a target who is a match
    already stays one, and is liked again). *)
Theorem swipe_right_one_sided (actor target : ObjectId) (db : Users) (ua ut : User) :
  db !! actor = Some ua → db !! target = Some ut → actor ∉ liked ut →
  ∃ ua',
    Auth.swipe actor target "right" db
      = (Json 200 (Auth.mkSwipeReply "Swiped right" false), <[actor := ua']> db) ∧
    target ∈ liked ua' ∧ (target ∉ disliked ua') ∧
    (∀ x, x ≠ target → (x ∈ liked ua' ↔ x ∈ liked ua) ∧ (x ∈ disliked ua' ↔ x ∈ disliked ua)) ∧
    swipeLimit ua' = (swipeLimit ua - 1)%Z ∧ spinLimit ua' = spinLimit ua ∧
    matches ua' = matches ua ∧ pinnedMatches ua' = pinnedMatches ua.
Proof.
  intros Ha Ht Hout.
  destruct (swipe_cases actor target "right" db)
    as [(c & m & E) | [(ua0 & Ha0 & _ & E) | (_ & ut0 & Ht0 & Hin & _)]].
  - exfalso. revert E. unfold Auth.swipe, findById. simpl. rewrite Ht.
    apply includes_false in Hout. rewrite Hout.
    by rewrite (findByIdAndUpdate_Some _ _ _ _ Ha).
  - rewrite Ha in Ha0. injection Ha0 as <-.
    eexists. split; [exact E |]. unfold Auth.updateActions. simpl.
    split; [apply addToSet_self |]. split; [apply not_elem_of_pull |].
    split; [| done]. intros x Hx.
    rewrite elem_of_addToSet, elem_of_pull. tauto.
  - rewrite Ht in Ht0. injection Ht0 as <-. done.
Qed.

(** X1 on alice and bob as registered. *)
Lemma swipe_right_one_sided_witness :
  ∃ ua',
    Auth.swipe "a" "b" "right" db0
      = (Json 200 (Auth.mkSwipeReply "Swiped right" false), <["a" := ua']> db0) ∧
    liked ua' = ["b"] ∧ swipeLimit ua' = 9%Z.
Proof.
  destruct (swipe_right_one_sided "a" "b" db0 alice bob)
    as (ua' & E & _ & _ & _ & Hs & _); [vm_compute; reflexivity .. | |].
  - simpl. apply not_elem_of_nil.
  - exists ua'. split; [exact E |].
    assert (<["a" := ua']> db0 !! "a"
            = (Auth.swipe "a" "b" "right" db0).2 !! "a") as Hlook by by rewrite E.
    rewrite lookup_insert_eq in Hlook. vm_compute in Hlook. injection Hlook as ->.
    split; reflexivity.
Defined.

(** X2: a swipe that is refused (an unknown direction, a target or an actor
    that is not stored) has changed nothing. *)
Theorem swipe_refused_unchanged (actor target : ObjectId) (direction : string)
    (db : Users) (code : Z) (error : string) :
  (Auth.swipe actor target direction db).1 = Error code error →
  (Auth.swipe actor target direction db).2 = db.
Proof.
  intros Herr.
  destruct (swipe_cases actor target direction db)
    as [(c & m & E) | [(ua & _ & _ & E) | (_ & ut & _ & _ & E)]];
    rewrite E in *; simpl in *; done.
Qed.

(** X2 on a right swipe on a user who is not stored. *)
Lemma swipe_refused_unchanged_witness :
  (Auth.swipe "a" "nobody" "right" db0).2 = db0.
Proof.
  apply (swipe_refused_unchanged "a" "nobody" "right" db0 404 "Target user not found").
  vm_compute. reflexivity.
Defined.

(** X3: a swipe stores no new user, removes none, and leaves every document
    other than those of the actor and the target as it was. *)
Theorem swipe_frame (actor target : ObjectId) (direction : string) (db : Users) :
  (∀ j, is_Some ((Auth.swipe actor target direction db).2 !! j) ↔ is_Some (db !! j)) ∧
  (∀ j, j ≠ actor → j ≠ target →
     (Auth.swipe actor target direction db).2 !! j = db !! j).
Proof.
  assert (stepwise (λ i u u', i ≠ actor → i ≠ target → u' = u) db
            (Auth.swipe actor target direction db).2) as Hstep.
  { apply stepwise_swipe; try done.
    intros i u v w Huv Hvw ? ?. rewrite Hvw, Huv; done. }
  split.
  - intros j. specialize (Hstep j). inversion Hstep; split; eauto.
  - intros j Ha Ht. specialize (Hstep j). inversion Hstep as [u u' Hu|]; [| done].
    by rewrite (Hu Ha Ht).
Qed.

(** X3 on carol while alice swipes on bob. *)
Lemma swipe_frame_witness :
  (Auth.swipe "a" "b" "right" db3).2 !! "c" = db3 !! "c".
Proof.
  apply (proj2 (swipe_frame "a" "b" "right" db3) "c"); discriminate.
Defined.

Lemma is_Some_insert (db : Users) i j x :
  is_Some (db !! j) → is_Some (<[i := x]> db !! j).
Proof.
  intros H. destruct (decide (i = j)) as [<- | Hne].
  - rewrite lookup_insert_eq. eauto.
  - by rewrite lookup_insert_ne.
Qed.

Lemma updateActions_matches d t u : matches (Auth.updateActions d t u) = matches u.
Proof. unfold Auth.updateActions. by case_decide. Qed.

(** X4: swipes keep the matches symmetric: in a collection where every liked
    id is a stored user and every match is a stored user who holds the match
    in turn, the same is true after any swipe. *)
Theorem swipe_keeps_matches_symmetric (actor target : ObjectId) (direction : string)
    (db : Users) :
  likedExist db → matchesSymmetric db →
  likedExist (Auth.swipe actor target direction db).2 ∧
  matchesSymmetric (Auth.swipe actor target direction db).2.
Proof.
  intros HL HM.
  destruct (swipe_cases actor target direction db)
    as [(c & m & ->) | [(ua & Ha & Hd & ->) | (-> & ut & Ht & Hin & ->)]]; simpl.
  - done.
  - set (ua' := Auth.decSwipeLimit (Auth.updateActions direction target ua)).
    assert (matches ua' = matches ua) as Hm by apply updateActions_matches.
    assert (∀ j, j ∈ liked ua' → is_Some (db !! j)) as Hl.
    { intros j. unfold ua', Auth.updateActions.
      destruct Hd as [-> | (-> & ut & Ht & _)]; simpl.
      - by apply (HL actor ua).
      - intros [-> | Hj]%elem_of_addToSet; [by rewrite Ht | by apply (HL actor ua)]. }
    split.
    + intros i u j Hi Hj. apply is_Some_insert.
      destruct (decide (actor = i)) as [<- | Hne].
      * rewrite lookup_insert_eq in Hi. injection Hi as <-. by apply Hl.
      * rewrite lookup_insert_ne in Hi by done. by apply (HL i u).
    + intros i u j Hi Hj.
      assert (∃ u0, db !! i = Some u0 ∧ matches u0 = matches u) as (u0 & Hi0 & Hm0).
      { destruct (decide (actor = i)) as [<- | Hne].
        - rewrite lookup_insert_eq in Hi. injection Hi as <-. by exists ua.
        - rewrite lookup_insert_ne in Hi by done. by exists u. }
      rewrite <- Hm0 in Hj. destruct (HM i u0 j Hi0 Hj) as (v & Hv & Hiv).
      destruct (decide (actor = j)) as [<- | Hne].
      * exists ua'. rewrite lookup_insert_eq. split; [done |].
        rewrite Hm. congruence.
      * exists v. by rewrite lookup_insert_ne.
  - destruct (HL target ut actor Ht Hin) as [ua Ha].
    set (db' := (findByIdAndUpdate actor Auth.decSwipeLimit
                   (Auth.connect actor target db)).2).
    set (P := λ (i : ObjectId) (u u' : User),
           liked u' ⊆ liked u ∧ matches u ⊆ matches u' ∧
           ∀ j, j ∈ matches u' →
                j ∈ matches u ∨ (i = actor ∧ j = target) ∨ (i = target ∧ j = actor)).
    assert (∀ i u, P i u u) as P_refl by (intros i u; unfold P; auto).
    assert (∀ i u v w, P i u v → P i v w → P i u w) as P_trans.
    { intros i u v w (Hl1 & Hm1 & Hn1) (Hl2 & Hm2 & Hn2).
      split; [by etrans |]. split; [by etrans |].
      intros j Hj. destruct (Hn2 j Hj) as [Hj' | ?]; [by apply Hn1 | by right]. }
    assert (stepwise P db db') as Hstep.
    { apply (stepwise_trans P P_trans) with (Auth.connect actor target db).
      - apply (stepwise_connect P P_refl P_trans); intros u; unfold P; simpl.
        + split; [intros y [_ Hy]%elem_of_pull; done |].
          split; [apply subseteq_addToSet |].
          intros j [-> | Hj]%elem_of_addToSet; auto.
        + split; [intros y [_ Hy]%elem_of_pull; done |].
          split; [apply subseteq_addToSet |].
          intros j [-> | Hj]%elem_of_addToSet; auto.
      - apply (stepwise_update P P_refl). intros u. unfold P. simpl. auto. }
    assert (∃ ua' ut', db' !! actor = Some ua' ∧ db' !! target = Some ut' ∧
                       target ∈ matches ua' ∧ actor ∈ matches ut')
      as (ua' & ut' & Ha' & Ht' & Hta & Hat).
    { destruct (connect_matchedWith actor target db ua ut Ha Ht)
        as (ua1 & ut1 & Ha1 & Ht1 & (Hta & _) & (Hat & _)).
      unfold db'. exists (Auth.decSwipeLimit ua1).
      destruct (decide (actor = target)) as [<- | Hne].
      - exists (Auth.decSwipeLimit ua1).
        rewrite findByIdAndUpdate_same, Ha1. simpl. repeat split; done.
      - exists ut1. rewrite findByIdAndUpdate_same, Ha1.
        rewrite findByIdAndUpdate_other by done. done. }
    split.
    + intros i u' j Hi Hj.
      destruct (stepwise_Some_r P db db' i u' Hstep Hi) as (u & Hu & Hl & _).
      destruct (HL i u j Hu (Hl j Hj)) as [v Hv].
      destruct (stepwise_Some_l P db db' j v Hstep Hv) as (v' & Hv' & _). eauto.
    + intros i u' j Hi Hj.
      destruct (stepwise_Some_r P db db' i u' Hstep Hi) as (u & Hu & _ & _ & Hnew).
      destruct (Hnew j Hj) as [Hold | [[-> ->] | [-> ->]]].
      * destruct (HM i u j Hu Hold) as (v & Hv & Hiv).
        destruct (stepwise_Some_l P db db' j v Hstep Hv) as (v' & Hv' & _ & Hsub & _).
        exists v'. split; [done | by apply Hsub].
      * exists ut'. done.
      * exists ua'. done.
Qed.

(** The two conditions on a given collection, by evaluation. *)
Lemma likedExist_decide (db : Users) :
  bool_decide (map_Forall (λ _ u, Forall (λ j, is_Some (db !! j)) (liked u)) db) = true →
  likedExist db.
Proof.
  intros H. apply bool_decide_eq_true in H. intros i u j Hi Hj.
  specialize (H i u Hi). simpl in H. rewrite Forall_forall in H. by apply H.
Qed.

Lemma matchesSymmetric_decide (db : Users) :
  bool_decide (map_Forall (λ i u,
     forallb (λ j, match db !! j with
                   | Some v => bool_decide (i ∈ matches v)
                   | None => false
                   end) (matches u) = true) db) = true →
  matchesSymmetric db.
Proof.
  intros H. apply bool_decide_eq_true in H. intros i u j Hi Hj.
  specialize (H i u Hi). simpl in H. rewrite forallb_forall in H.
  specialize (H j (proj1 (list_elem_of_In _ _) Hj)).
  destruct (db !! j) as [v|]; [| done].
  apply bool_decide_eq_true in H. eauto.
Qed.

(** X4 on the swipe of bob that matches him with carol. *)
Lemma swipe_keeps_matches_symmetric_witness :
  likedExist (Auth.swipe "b" "c" "right" db3).2 ∧
  matchesSymmetric (Auth.swipe "b" "c" "right" db3).2.
Proof.
  apply (swipe_keeps_matches_symmetric "b" "c" "right" db3).
  - apply likedExist_decide. vm_compute. reflexivity.
  - apply matchesSymmetric_decide. vm_compute. reflexivity.
Defined.

(** ** The spinner *)

(** A request to [/spinwin] changes the swipeLimit and the spinLimit of
    nobody, whether it makes a match, records a swipe or is refused. *)
Theorem spinwin_keeps_quotas (currentUserId targetUserId : ObjectId)
    (isSpinnerWinner : bool) (direction : string) (db : Users) (j : ObjectId) :
  swipeLimit <$> (Auth.spinwin currentUserId targetUserId isSpinnerWinner direction db).2 !! j
    = swipeLimit <$> db !! j ∧
  spinLimit <$> (Auth.spinwin currentUserId targetUserId isSpinnerWinner direction db).2 !! j
    = spinLimit <$> db !! j.
Proof.
  assert (stepwise (λ _ u u', swipeLimit u' = swipeLimit u ∧ spinLimit u' = spinLimit u) db
            (Auth.spinwin currentUserId targetUserId isSpinnerWinner direction db).2) as H.
  { apply stepwise_spinwin; try done.
    - intros _ u v w [? ?] [? ?]. split; congruence.
    - intros u. unfold Auth.updateActions. by case_decide. }
  specialize (H j). inversion H as [u u' [Hs Hp]|]; simpl; [by rewrite Hs, Hp | done].
Qed.

(** X5: a winner of the spinner and the target, both stored, are matched
    whether or not either has liked the other: the reply announces the match
    and each is in the other's matches and in neither of the other's liked
    and disliked sets. *)
Theorem spinwin_winner_matches (currentUserId targetUserId : ObjectId)
    (direction : string) (db : Users) (uc ut : User) :
  db !! currentUserId = Some uc → db !! targetUserId = Some ut →
  ∃ uc' ut',
    (Auth.spinwin currentUserId targetUserId true direction db).1
      = Json 200 (Auth.mkSwipeReply "Winner connected successfully!" true) ∧
    (Auth.spinwin currentUserId targetUserId true direction db).2 !! currentUserId = Some uc' ∧
    (Auth.spinwin currentUserId targetUserId true direction db).2 !! targetUserId = Some ut' ∧
    matchedWith targetUserId uc' ∧ matchedWith currentUserId ut'.
Proof.
  intros Hc Ht.
  destruct (connect_matchedWith currentUserId targetUserId db uc ut Hc Ht)
    as (uc' & ut' & Hc' & Ht' & Hmc & Hmt).
  exists uc', ut'. revert Hc' Ht'. unfold Auth.spinwin, Auth.connect.
  rewrite (findByIdAndUpdate_Some _ _ _ _ Hc). simpl.
  assert (is_Some (<[currentUserId := Auth.matchUpdate targetUserId uc]> db !! targetUserId))
    as [ut1 Ht1] by (apply is_Some_insert; eauto).
  rewrite (findByIdAndUpdate_Some _ _ _ _ Ht1). simpl. done.
Qed.

(** X5 on alice and bob, neither of whom has swiped. *)
Lemma spinwin_winner_matches_witness :
  ∃ uc' ut',
    (Auth.spinwin "a" "b" true "" db0).1
      = Json 200 (Auth.mkSwipeReply "Winner connected successfully!" true) ∧
    (Auth.spinwin "a" "b" true "" db0).2 !! "a" = Some uc' ∧
    (Auth.spinwin "a" "b" true "" db0).2 !! "b" = Some ut' ∧
    matchedWith "b" uc' ∧ matchedWith "a" ut'.
Proof.
  apply (spinwin_winner_matches "a" "b" "" db0 alice bob); vm_compute; reflexivity.
Defined.

(** X6: when the target of a winner is not stored, [/spinwin] answers 404
    after it has written the match into the document of the current user:
    the target is in the matches of the current user all the same. *)
Theorem spinwin_winner_unknown_target (currentUserId targetUserId : ObjectId)
    (direction : string) (db : Users) (uc : User) :
  db !! currentUserId = Some uc → db !! targetUserId = None →
  Auth.spinwin currentUserId targetUserId true direction db
    = (Error 404 "User not found",
       <[currentUserId := Auth.matchUpdate targetUserId uc]> db) ∧
  targetUserId ∈ matches (Auth.matchUpdate targetUserId uc).
Proof.
  intros Hc Ht. split; [| apply (matchUpdate_matchedWith targetUserId uc)].
  unfold Auth.spinwin. rewrite (findByIdAndUpdate_Some _ _ _ _ Hc). simpl.
  assert (currentUserId ≠ targetUserId) as Hne by congruence.
  rewrite findByIdAndUpdate_None by (by rewrite lookup_insert_ne).
  done.
Qed.

(** X6 on alice and an id that is not stored. *)
Lemma spinwin_winner_unknown_target_witness :
  (Auth.spinwin "a" "nobody" true "" db0).1 = Error 404 "User not found" ∧
  matches <$> (Auth.spinwin "a" "nobody" true "" db0).2 !! "a" = Some ["nobody"].
Proof.
  destruct (spinwin_winner_unknown_target "a" "nobody" "" db0 alice) as [E _];
    [vm_compute; reflexivity .. |].
  rewrite E. simpl. rewrite lookup_insert_eq. split; reflexivity.
Defined.

(** ** What no request does *)

(** X7: no request lowers a spinLimit: whatever is served, every stored user
    remains stored, with a spinLimit at least as high as before. *)
Theorem handle_never_lowers_spinLimit (compare : string → string → bool)
    (toDateString : Z → string) (r : Request) (db : Users) (i : ObjectId) (u : User) :
  db !! i = Some u →
  ∃ u', handle compare toDateString r db !! i = Some u' ∧
        (spinLimit u ≤ spinLimit u')%Z.
Proof.
  intros Hu.
  assert (stepwise (λ _ u u', (spinLimit u ≤ spinLimit u')%Z) db
            (handle compare toDateString r db)) as H.
  { apply stepwise_handle; try (intros; simpl; lia).
    - intros _ d x v. unfold Auth.updateActions. case_decide; simpl; lia.
    - intros _ now v. destruct (dailyReset_limits now v) as (_ & -> & _). lia. }
  by apply (stepwise_Some_l _ db _ i u H).
Qed.

(** X7 on alice across a swipe. *)
Lemma handle_never_lowers_spinLimit_witness :
  ∃ u', handle (λ _ _, true) utcDay (PostSwipe "a" "b" "left") db0 !! "a" = Some u' ∧
        (spinLimit alice ≤ spinLimit u')%Z.
Proof.
  apply (handle_never_lowers_spinLimit (λ _ _, true) utcDay (PostSwipe "a" "b" "left")
           db0 "a" alice).
  vm_compute. reflexivity.
Defined.

(** X8: no request undoes a match or changes an account: every stored user
    remains stored under the same email, username and password hash, with
    every match held before. *)
Theorem handle_keeps_matches (compare : string → string → bool)
    (toDateString : Z → string) (r : Request) (db : Users) (i : ObjectId) (u : User) :
  db !! i = Some u →
  ∃ u', handle compare toDateString r db !! i = Some u' ∧
        matches u ⊆ matches u' ∧
        email u' = email u ∧ username u' = username u ∧ password u' = password u.
Proof.
  intros Hu.
  assert (stepwise (λ _ u u', matches u ⊆ matches u' ∧ email u' = email u ∧
                              username u' = username u ∧ password u' = password u) db
            (handle compare toDateString r db)) as H.
  { apply stepwise_handle; try done.
    - intros _ v w x (? & ? & ? & ?) (? & ? & ? & ?).
      split; [by etrans |]. repeat split; congruence.
    - intros _ x v. split; [apply subseteq_addToSet | done].
    - intros _ d x v. unfold Auth.updateActions. by case_decide.
    - intros _ x v. split; [| done]. intros y Hy. simpl. apply elem_of_app. by left.
    - intros _ now v. unfold Auth.dailyReset. by repeat case_match. }
  by apply (stepwise_Some_l _ db _ i u H).
Qed.

(** X8 on bob, matched with alice, across a left swipe of his on her. *)
Lemma handle_keeps_matches_witness :
  ∃ u', handle (λ _ _, true) utcDay (PostSwipe "b" "a" "left") dbMatched !! "b" = Some u' ∧
        "a" ∈ matches u'.
Proof.
  destruct (handle_keeps_matches (λ _ _, true) utcDay (PostSwipe "b" "a" "left")
              dbMatched "b" (Auth.matchUpdate "a" bob)) as (u' & Hu' & Hm & _).
  - vm_compute. reflexivity.
  - exists u'. split; [exact Hu' |]. apply Hm. simpl. left.
Defined.

(** ** The feed, further *)

Lemma sublist_List_filter {A} (f : A → bool) (l : list A) : List.filter f l `sublist_of` l.
Proof.
  induction l as [|x l IH]; simpl; [done |].
  destruct (f x); [by apply sublist_skip | by apply sublist_cons].
Qed.

Lemma find_sublist P skip limit (db : Users) :
  Auth.find P skip limit db `sublist_of` map_to_list db.
Proof.
  unfold Auth.find.
  etrans; [apply sublist_take |]. etrans; [apply sublist_drop |].
  apply sublist_List_filter.
Qed.

Lemma find_length P skip limit (db : Users) :
  (length (Auth.find P skip limit db) ≤ Z.abs_nat limit)%nat.
Proof. unfold Auth.find. rewrite length_take. lia. Qed.

(** The two queries of [/all-users], as the handler runs them. *)
Lemma allUsers_Json rnd cur page limit (db : Users) u feed :
  db !! cur = Some u →
  Auth.allUsers rnd cur page limit db = Json 200 feed →
  ∃ withPicture withoutPicture,
    let excludeIds := liked u ++ matches u ++ [cur] in
    let genders := Auth.genderFilter (interestedIn u) in
    let skip := ((Auth.orDefault page 1 - 1) * Auth.orDefault limit 10)%Z in
    withPicture
      = Auth.find (λ d, Auth.feedFilter excludeIds genders d
                        && bool_decide (is_Some (profilePicture d.2)))
          skip (Auth.orDefault limit 10) db ∧
    withoutPicture
      = Auth.find (λ d, Auth.feedFilter excludeIds genders d
                        && bool_decide (profilePicture d.2 = None))
          skip (Auth.orDefault limit 10) db ∧
    feed = Auth.project <$>
             (Auth.shuffleArray rnd 0 withPicture
              ++ Auth.shuffleArray rnd (length withPicture - 1) withoutPicture).
Proof.
  intros Hcur. unfold Auth.allUsers, findById. rewrite Hcur.
  destruct ((Auth.orDefault page 1 - 1) * Auth.orDefault limit 10 <? 0)%Z; [done |].
  intros [= <-]. eexists _, _. simpl. done.
Qed.

(** X9: every candidate of the feed has a gender the requester is
    interested in, a date of birth, a preference of their own and a name
    other than the empty string; a requester without a stored preference
    gets the empty feed. *)
Theorem allUsers_filter rnd (currentUserId : ObjectId) (query_page query_limit : option Z)
    (db : Users) (currentUser : User) (feed : list Auth.Candidate) :
  db !! currentUserId = Some currentUser →
  Auth.allUsers rnd currentUserId query_page query_limit db = Json 200 feed →
  (∀ c, c ∈ feed →
     (∃ g, Auth.cand_gender c = Some g ∧
           g ∈ Auth.genderFilter (interestedIn currentUser)) ∧
     is_Some (Auth.cand_dob c) ∧ is_Some (Auth.cand_interestedIn c) ∧
     Auth.cand_name c ≠ Some "") ∧
  (interestedIn currentUser = None → feed = []).
Proof.
  intros Hcur Hfeed.
  destruct (allUsers_Json _ _ _ _ _ _ _ Hcur Hfeed) as (wp & wo & Hwp & Hwo & ->).
  simpl in Hwp, Hwo.
  assert (∀ c, c ∈ Auth.project <$>
                 (Auth.shuffleArray rnd 0 wp ++ Auth.shuffleArray rnd (length wp - 1) wo) →
     (∃ g, Auth.cand_gender c = Some g ∧
           g ∈ Auth.genderFilter (interestedIn currentUser)) ∧
     is_Some (Auth.cand_dob c) ∧ is_Some (Auth.cand_interestedIn c) ∧
     Auth.cand_name c ≠ Some "") as Hall.
  { intros c (d & -> & Hd)%list_elem_of_fmap.
    rewrite elem_of_app, !shuffleArray_Permutation in Hd.
    assert (Auth.feedFilter (liked currentUser ++ matches currentUser ++ [currentUserId])
              (Auth.genderFilter (interestedIn currentUser)) d = true) as Hf.
    { destruct Hd as [Hd | Hd]; subst; apply elem_of_find in Hd;
        destruct Hd as [_ Hd]; by apply andb_true_iff in Hd as [? _]. }
    unfold Auth.feedFilter in Hf.
    rewrite !andb_true_iff, !bool_decide_eq_true in Hf.
    destruct Hf as ((((_ & Hname) & Hdob) & Hgender) & Hint). simpl.
    split; [| done]. unfold Auth.genderIn in Hgender.
    destruct (gender d.2) as [g|]; [| done].
    apply bool_decide_eq_true in Hgender. eauto. }
  split; [exact Hall |].
  intros Hnone.
  destruct (Auth.project <$>
              (Auth.shuffleArray rnd 0 wp ++ Auth.shuffleArray rnd (length wp - 1) wo))
    as [|c rest] eqn:E; [done |].
  destruct (Hall c) as ((g & _ & Hg) & _); [left |].
  rewrite Hnone in Hg. by apply elem_of_nil in Hg.
Qed.

(** X9 on the feed of Ann, whose only candidate is a man and who is
    interested in everybody. *)
Lemma allUsers_filter_witness :
  Forall (λ c,
    (∃ g, Auth.cand_gender c = Some g ∧ g ∈ [Male; Female; Other]) ∧
    is_Some (Auth.cand_dob c) ∧ is_Some (Auth.cand_interestedIn c) ∧
    Auth.cand_name c ≠ Some "") feedOfAnn.
Proof.
  apply Forall_forall.
  apply (allUsers_filter (λ _, 0) "a" None None feedDb
           (profile "ann@amity.edu" "Ann" Female InBoth ["c"] ["b"]) feedOfAnn);
    vm_compute; reflexivity.
Defined.

(** X10: no user is in a feed twice. *)
Theorem allUsers_NoDup rnd (currentUserId : ObjectId) (query_page query_limit : option Z)
    (db : Users) (currentUser : User) (feed : list Auth.Candidate) :
  db !! currentUserId = Some currentUser →
  Auth.allUsers rnd currentUserId query_page query_limit db = Json 200 feed →
  NoDup (Auth.cand_id <$> feed).
Proof.
  intros Hcur Hfeed.
  destruct (allUsers_Json _ _ _ _ _ _ _ Hcur Hfeed) as (wp & wo & Hwp & Hwo & ->).
  simpl in Hwp, Hwo.
  rewrite <- list_fmap_compose.
  rewrite (list_fmap_ext (Auth.cand_id ∘ Auth.project) fst _) by done.
  rewrite fmap_app, !shuffleArray_Permutation.
  assert (∀ P skip limit, NoDup ((Auth.find P skip limit db).*1)) as Hnd.
  { intros P skip limit.
    apply (sublist_NoDup _ ((map_to_list db).*1)); [apply NoDup_fst_map_to_list |].
    apply fmap_sublist, find_sublist. }
  apply NoDup_app. split; [subst; apply Hnd |]. split; [| subst; apply Hnd].
  intros i (d1 & -> & Hd1)%list_elem_of_fmap (d2 & Heq & Hd2)%list_elem_of_fmap.
  subst. apply elem_of_find in Hd1. apply elem_of_find in Hd2.
  destruct Hd1 as [Hl1 Hp1], Hd2 as [Hl2 Hp2].
  rewrite Heq, Hl2 in Hl1. injection Hl1 as Hl1.
  apply andb_true_iff in Hp1 as [_ Hp1]. apply andb_true_iff in Hp2 as [_ Hp2].
  apply bool_decide_eq_true in Hp1. apply bool_decide_eq_true in Hp2.
  rewrite <- Hl1, Hp2 in Hp1. by destruct Hp1.
Qed.

(** X10 on the feed of Ann. *)
Lemma allUsers_NoDup_witness : NoDup (Auth.cand_id <$> feedOfAnn).
Proof.
  apply (allUsers_NoDup (λ _, 0) "a" None None feedDb
           (profile "ann@amity.edu" "Ann" Female InBoth ["c"] ["b"]) feedOfAnn);
    vm_compute; reflexivity.
Defined.



(** X12: whatever [Math.random] draws, [shuffleArray] returns a
    rearrangement of its argument: the same elements, each as often as
    before. *)
Theorem shuffleArray_rearranges {A} (rnd : nat → nat) (k : nat) (array : list A) :
  Auth.shuffleArray rnd k array ≡ₚ array ∧
  length (Auth.shuffleArray rnd k array) = length array.
Proof.
  pose proof (shuffleFrom_Permutation (length array - 1) rnd k array) as H.
  split; [exact H | by rewrite H].
Qed.

(** ** The spinner's candidates *)

Lemma orString_nonempty value dflt : dflt ≠ "" → Auth.orString value dflt ≠ "".
Proof.
  intros Hd. unfold Auth.orString. destruct value as [s|]; [| done].
  by case_decide.
Qed.

(** X13: the reply of [/spinner-users] has at most 10 entries; each is a
    stored user other than the requester, outside the requester's liked and
    matches, and carries a name and a picture that are never empty (the
    placeholders stand in for an absent or empty value). *)
Theorem spinnerUsers_entries (currentUserId : ObjectId) (db : Users)
    (currentUser : User) (entries : list Auth.SpinnerUser) :
  db !! currentUserId = Some currentUser →
  Auth.spinnerUsers currentUserId db = Json 200 entries →
  (length entries ≤ 10)%nat ∧
  ∀ e, e ∈ entries →
    is_Some (db !! Auth.spinner_id e) ∧
    Auth.spinner_id e ≠ currentUserId ∧
    (Auth.spinner_id e ∉ liked currentUser) ∧
    (Auth.spinner_id e ∉ matches currentUser) ∧
    Auth.spinner_name e ≠ "" ∧ Auth.spinner_profilePicture e ≠ "".
Proof.
  intros Hcur. unfold Auth.spinnerUsers, findById. rewrite Hcur. intros [= <-].
  split.
  - rewrite length_fmap. apply (find_length _ 0 10 db).
  - intros e (d & -> & Hd)%list_elem_of_fmap. simpl.
    apply elem_of_find in Hd. destruct Hd as [Hl Hp].
    rewrite !andb_true_iff, bool_decide_eq_true in Hp.
    destruct Hp as [[Hex _] _].
    rewrite !not_elem_of_app, list_elem_of_singleton in Hex.
    split; [by rewrite Hl |]. repeat split; try tauto; by apply orString_nonempty.
Qed.

(** X13 on Ann, whose one candidate has neither a name nor a picture. *)
Lemma spinnerUsers_entries_witness :
  Auth.spinnerUsers "a" spinnerDb
    = Json 200 [Auth.mkSpinnerUser "b" "Name not available"
                  "https://example.com/dummy-profile.jpg"] ∧
  ∀ e, e ∈ [Auth.mkSpinnerUser "b" "Name not available"
              "https://example.com/dummy-profile.jpg"] →
    Auth.spinner_id e ≠ "a" ∧ Auth.spinner_name e ≠ "".
Proof.
  assert (Auth.spinnerUsers "a" spinnerDb
    = Json 200 [Auth.mkSpinnerUser "b" "Name not available"
                  "https://example.com/dummy-profile.jpg"]) as E
    by (vm_compute; reflexivity).
  split; [exact E |].
  destruct (spinnerUsers_entries "a" spinnerDb
              (profile "ann@amity.edu" "Ann" Female InBoth ["c"] []) _
              ltac:(vm_compute; reflexivity) E) as [_ H].
  intros e He. destruct (H e He) as (_ & ? & _ & _ & ? & _). done.
Defined.

(** ** The users who liked the current user *)

Lemma elem_of_likedBy_filter (cur : ObjectId) (db : Users) d :
  d ∈ List.filter (λ d, Mongo.includes (liked d.2) cur) (map_to_list db) ↔
  db !! d.1 = Some d.2 ∧ cur ∈ liked d.2.
Proof.
  rewrite list_elem_of_In, filter_In, <- list_elem_of_In, elem_of_map_to_list'.
  by rewrite includes_true.
Qed.

(** X14: [/liked-by] answers 404 exactly when no stored user holds the
    current id in liked; otherwise it answers 200 with a non-empty list whose
    ids are exactly those of the users who do. *)
Theorem likedBy_exact (currentUserId : ObjectId) (db : Users) :
  match Auth.likedBy currentUserId db with
  | Json code entries =>
      code = 200%Z ∧ entries ≠ [] ∧
      ∀ i, i ∈ Auth.admirer_id <$> entries ↔
           ∃ u, db !! i = Some u ∧ currentUserId ∈ liked u
  | Error code _ =>
      code = 404%Z ∧ ∀ i u, db !! i = Some u → currentUserId ∉ liked u
  end.
Proof.
  unfold Auth.likedBy.
  remember (List.filter (λ d, Mongo.includes (liked d.2) currentUserId) (map_to_list db))
    as users eqn:Husers.
  assert (∀ d, d ∈ users ↔ db !! d.1 = Some d.2 ∧ currentUserId ∈ liked d.2) as Hin
    by (intros d; subst; apply elem_of_likedBy_filter).
  clear Husers. destruct users as [|d0 rest].
  - rewrite bool_decide_eq_true_2 by done. split; [done |].
    intros i u Hu Hl. apply (not_elem_of_nil (i, u)), Hin. done.
  - rewrite bool_decide_eq_false_2 by done. split; [done |]. split; [done |].
    intros i. rewrite <- list_fmap_compose. split.
    + intros (d & -> & Hd)%list_elem_of_fmap. apply Hin in Hd. simpl. eauto.
    + intros (u & Hu & Hl). apply list_elem_of_fmap. exists (i, u).
      split; [done |]. by apply Hin.
Qed.

(** The ids [/liked-by] lists for a user: none when it answers 404. *)
Lemma likedBy_ids (cur : ObjectId) (db : Users) i :
  (∃ entries, Auth.likedBy cur db = Json 200 entries ∧ i ∈ Auth.admirer_id <$> entries)
  ↔ ∃ u, db !! i = Some u ∧ cur ∈ liked u.
Proof.
  unfold Auth.likedBy.
  remember (List.filter (λ d, Mongo.includes (liked d.2) cur) (map_to_list db))
    as users eqn:Husers.
  assert (∀ d, d ∈ users ↔ db !! d.1 = Some d.2 ∧ cur ∈ liked d.2) as Hin
    by (intros d; subst; apply elem_of_likedBy_filter).
  clear Husers. split.
  - intros (entries & E & Hi). destruct (bool_decide (length users = 0)); [done |].
    injection E as <-. rewrite <- list_fmap_compose in Hi.
    apply list_elem_of_fmap in Hi. destruct Hi as (d & -> & Hd).
    apply Hin in Hd. simpl. eauto.
  - intros (u & Hu & Hl). assert ((i, u) ∈ users) as Hd by by apply Hin.
    destruct users as [|d0 rest]; [by apply elem_of_nil in Hd |].
    rewrite bool_decide_eq_false_2 by done.
    eexists. split; [done |]. rewrite <- list_fmap_compose.
    apply list_elem_of_fmap. by exists (i, u).
Qed.

(** The collection after the two kinds of right swipe on a stored target. *)
Lemma swipe_right_store (actor target : ObjectId) (db : Users) (ua ut : User) :
  db !! actor = Some ua → db !! target = Some ut →
  (Auth.swipe actor target "right" db).2 =
    if decide (actor ∈ liked ut)
    then (findByIdAndUpdate actor Auth.decSwipeLimit (Auth.connect actor target db)).2
    else <[actor := Auth.decSwipeLimit (Auth.updateActions "right" target ua)]> db.
Proof.
  intros Ha Ht.
  destruct (swipe_cases actor target "right" db)
    as [(c & m & E) | [(ua0 & Ha0 & Hd & E) | (_ & ut0 & Ht0 & Hin & E)]].
  - exfalso. revert E. unfold Auth.swipe, findById. simpl. rewrite Ht.
    destruct (Mongo.includes (liked ut) actor); [done |].
    by rewrite (findByIdAndUpdate_Some _ _ _ _ Ha).
  - destruct Hd as [? | (_ & ut0 & Ht0 & Hout)]; [done |].
    rewrite Ht in Ht0. injection Ht0 as <-. rewrite Ha in Ha0. injection Ha0 as <-.
    rewrite decide_False by done. by rewrite E.
  - rewrite Ht in Ht0. injection Ht0 as <-. rewrite decide_True by done. by rewrite E.
Qed.

(** After a right swipe of a stored actor on a stored target who has
    not liked the actor, the actor is in the reply of [/liked-by] for the
    target. *)
Theorem likedBy_after_swipe (actor target : ObjectId) (db : Users) (ua ut : User) :
  db !! actor = Some ua → db !! target = Some ut → actor ∉ liked ut →
  ∃ entries,
    Auth.likedBy target (Auth.swipe actor target "right" db).2 = Json 200 entries ∧
    actor ∈ Auth.admirer_id <$> entries.
Proof.
  intros Ha Ht Hout.
  rewrite (swipe_right_store actor target db ua ut Ha Ht), decide_False by done.
  apply likedBy_ids. eexists. rewrite lookup_insert_eq. split; [done |].
  unfold Auth.updateActions. simpl. apply addToSet_self.
Qed.

(** The same on alice, who swipes right on bob. *)
Lemma likedBy_after_swipe_witness :
  ∃ entries,
    Auth.likedBy "b" (Auth.swipe "a" "b" "right" db0).2 = Json 200 entries ∧
    "a" ∈ Auth.admirer_id <$> entries.
Proof.
  apply (likedBy_after_swipe "a" "b" db0 alice bob); [vm_compute; reflexivity .. |].
  simpl. apply not_elem_of_nil.
Defined.

(** X15: after the right swipe that matches B with A, who had liked B,
    neither is listed by [/liked-by] for the other. *)
Theorem likedBy_after_match (A B : ObjectId) (db : Users) (ua ub : User)
    (entries : list Auth.Admirer) :
  db !! A = Some ua → db !! B = Some ub → B ∈ liked ua →
  (Auth.likedBy B (Auth.swipe B A "right" db).2 = Json 200 entries →
     A ∉ Auth.admirer_id <$> entries) ∧
  (Auth.likedBy A (Auth.swipe B A "right" db).2 = Json 200 entries →
     B ∉ Auth.admirer_id <$> entries).
Proof.
  intros Ha Hb Hliked.
  assert (∃ ua' ub',
            (Auth.swipe B A "right" db).2 !! A = Some ua' ∧
            (Auth.swipe B A "right" db).2 !! B = Some ub' ∧
            (B ∉ liked ua') ∧ (A ∉ liked ub')) as (ua' & ub' & Ha' & Hb' & HBa & HAb).
  { rewrite (swipe_right_store B A db ub ua Hb Ha), decide_True by done.
    destruct (connect_matchedWith B A db ub ua Hb Ha)
      as (ub1 & ua1 & Hb1 & Ha1 & (_ & HAb & _) & (_ & HBa & _)).
    destruct (decide (B = A)) as [-> | Hne].
    - exists (Auth.decSwipeLimit ua1), (Auth.decSwipeLimit ua1).
      rewrite findByIdAndUpdate_same, Ha1. done.
    - exists ua1, (Auth.decSwipeLimit ub1).
      rewrite findByIdAndUpdate_other by done.
      rewrite findByIdAndUpdate_same, Hb1. done. }
  split; intros E Hin.
  - destruct (proj1 (likedBy_ids B _ A) (ex_intro _ entries (conj E Hin)))
      as (u & Hu & Hl). congruence.
  - destruct (proj1 (likedBy_ids A _ B) (ex_intro _ entries (conj E Hin)))
      as (u & Hu & Hl). congruence.
Qed.

(** X15 on bob, liked by alice and carol, who matches with alice: carol is
    the one user [/liked-by] still lists for him. *)
Lemma likedBy_after_match_witness :
  Auth.admirer_id <$>
    [Auth.mkAdmirer "c" None (Some "") "carol_0001"] = ["c"] ∧
  (Auth.likedBy "b" (Auth.swipe "b" "a" "right" db3a).2
     = Json 200 [Auth.mkAdmirer "c" None (Some "") "carol_0001"] →
   "a" ∉ Auth.admirer_id <$> [Auth.mkAdmirer "c" None (Some "") "carol_0001"]).
Proof.
  split; [reflexivity |].
  apply (likedBy_after_match "a" "b" db3a
           (Auth.decSwipeLimit (Auth.updateActions "right" "b" alice)) bob
           [Auth.mkAdmirer "c" None (Some "") "carol_0001"]).
  - vm_compute. reflexivity.
  - vm_compute. reflexivity.
  - vm_compute. left.
Defined.

(** ** Login, connect and pin: refusals and repetitions *)

(** With an email and a password given, a login for an email that no
    account has and a login with a wrong password get the same reply, status
    400 with one message for both, and change nothing. *)
Theorem login_failure_uniform (compare : string → string → bool)
    (toDateString : Z → string) (e p : string) (now : Z) (db : Users) :
  e ≠ "" → p ≠ "" →
  (Auth.findOneByEmail db e = None ∨
   ∃ i u, Auth.findOneByEmail db e = Some (i, u) ∧ compare p (password u) = false) →
  Auth.login compare toDateString e p now db
    = (Error 400 "Invalid email or password", db).
Proof.
  intros He Hp Hfail. unfold Auth.login.
  rewrite !bool_decide_eq_false_2 by done. simpl.
  destruct Hfail as [-> | (i & u & -> & ->)]; done.
Qed.

(** The same on an unknown email. *)
Lemma login_failure_uniform_witness :
  Auth.login (λ _ _, true) utcDay "nobody@amity.edu" "pw" 0 db0
    = (Error 400 "Invalid email or password", db0).
Proof.
  apply (login_failure_uniform (λ _ _, true) utcDay "nobody@amity.edu" "pw" 0 db0);
    [discriminate .. |].
  left. vm_compute. reflexivity.
Defined.

(** X16: [/connect-user] is idempotent: a second request with the same
    token and winner gets the reply of the first and changes nothing more. *)
Theorem connectUser_idempotent (req_user__id : option ObjectId) (winnerId : ObjectId)
    (db : Users) :
  Auth.connectUser req_user__id winnerId (Auth.connectUser req_user__id winnerId db).2
    = Auth.connectUser req_user__id winnerId db.
Proof.
  destruct req_user__id as [c|]; [| done].
  destruct (db !! winnerId) as [uw|] eqn:Hw;
    [| by unfold Auth.connectUser, findById; rewrite Hw; simpl; rewrite Hw].
  destruct (db !! c) as [uc|] eqn:Hc;
    [| by unfold Auth.connectUser, findById; rewrite Hw, Hc; simpl; rewrite Hw, Hc].
  pose proof (connectUser_existing c winnerId db uc uw Hc Hw) as E.
  destruct (decide (c ∈ matches uw)) as [Hin | Hout];
    [| destruct (Auth.validates uw) eqn:Hv].
  - rewrite E. exact E.
  - rewrite E. cbn [snd].
    set (uw' := with_matches (λ m, m ++ [c]) (loaded uw)).
    assert (is_Some (<[winnerId := uw']> db !! c)) as [uc' Hc']
      by (apply is_Some_insert; eauto).
    rewrite (connectUser_existing c winnerId _ uc' uw' Hc' (lookup_insert_eq _ _ _)).
    rewrite decide_True; [done |]. simpl. apply elem_of_app. right. left.
  - rewrite E. exact E.
Qed.

Lemma occurrences_present x l : x ∈ l → (0 < occurrences x l)%nat.
Proof.
  unfold occurrences. induction l as [|y l IH]; [by intros ?%elem_of_nil |].
  intros [-> | Hx]%elem_of_cons.
  - rewrite filter_cons_True by done. simpl. lia.
  - destruct (decide (y = x)) as [-> | Hne].
    + rewrite filter_cons_True by done. simpl. lia.
    + rewrite filter_cons_False by done. by apply IH.
Qed.

(** X17: a pin request of two stored users, for a target that the pin list
    of the current user holds at most once, toggles the target and nothing
    else when the document of the current user passes the validators of the
    schema: the target is pinned afterwards exactly if it was not before,
    every other id is pinned exactly if it was, and the reply lists the pins
    as stored.  When the document does not pass them, the request is
    answered with 500 and changes nothing. *)
Theorem pinMatch_toggles (currentUserId targetUserId : ObjectId) (db : Users)
    (uc ut : User) :
  db !! currentUserId = Some uc → db !! targetUserId = Some ut →
  targetUserId ≠ "" → (occurrences targetUserId (pinnedMatches uc) ≤ 1)%nat →
  (Auth.validates uc = true →
   ∃ uc' message,
    Auth.pinMatch currentUserId targetUserId db
      = (Json 200 (Auth.mkPinReply message (pinnedMatches uc')),
         <[currentUserId := uc']> db) ∧
    (targetUserId ∈ pinnedMatches uc' ↔ targetUserId ∉ pinnedMatches uc) ∧
    (∀ x, x ≠ targetUserId → (x ∈ pinnedMatches uc' ↔ x ∈ pinnedMatches uc))) ∧
  (Auth.validates uc = false →
   Auth.pinMatch currentUserId targetUserId db
     = (Error 500 "Internal server error", db)).
Proof.
  intros Hc Ht Hne Hocc. split; [| by apply pinMatch_invalid with ut].
  intros Hv.
  destruct (pinMatch_existing currentUserId targetUserId db uc ut Hne Hc Ht Hv)
    as [Hdb Hreply].
  eexists (with_pinnedMatches (togglePin targetUserId) (loaded uc)), _.
  split.
  { rewrite (surjective_pairing (Auth.pinMatch currentUserId targetUserId db)).
    rewrite Hdb, Hreply. reflexivity. }
  simpl. unfold togglePin.
  destruct (Mongo.indexOf (pinnedMatches uc) targetUserId) as [k|] eqn:Hk.
  - destruct (indexOf_Some _ _ _ Hk) as [Hlook _].
    pose proof (splice1_Permutation k _ _ Hlook) as Hperm.
    assert (targetUserId ∉ Mongo.splice1 k (pinnedMatches uc)) as Hout.
    { intros Hin%occurrences_present.
      rewrite <- (occurrences_Permutation targetUserId _ _ Hperm), occurrences_cons in Hocc.
      lia. }
    assert (targetUserId ∈ pinnedMatches uc) as Hin
      by (rewrite <- Hperm; left).
    split; [tauto |]. intros x Hx. rewrite <- Hperm at 2.
    rewrite elem_of_cons. tauto.
  - apply indexOf_None in Hk.
    split.
    + split; [done |]. intros _. apply elem_of_app. right. left.
    + intros x Hx. rewrite elem_of_app, list_elem_of_singleton. tauto.
Qed.

(** X17 on alice, whose document passes the validators and who pins bob. *)
Lemma pinMatch_toggles_witness :
  ∃ uc' message,
    Auth.pinMatch "a" "b" db0
      = (Json 200 (Auth.mkPinReply message (pinnedMatches uc')), <["a" := uc']> db0) ∧
    ("b" ∈ pinnedMatches uc' ↔ "b" ∉ pinnedMatches alice).
Proof.
  destruct (pinMatch_toggles "a" "b" db0 alice bob) as [Hvalid _].
  - vm_compute. reflexivity.
  - vm_compute. reflexivity.
  - discriminate.
  - vm_compute. lia.
  - destruct Hvalid as (uc' & m & E & Ht & _); [vm_compute; reflexivity |].
    exists uc', m. split; [exact E | exact Ht].
Defined.

(** ** Sorting *)

Lemma insertBy_Permutation {A} (cmp : A → A → Z) x (l : list A) :
  insertBy cmp x l ≡ₚ x :: l.
Proof.
  induction l as [|y l IH]; simpl; [done |].
  destruct (0 <? cmp x y)%Z; [| done]. rewrite IH. apply Permutation_swap.
Qed.

Lemma sortBy_Permutation {A} (cmp : A → A → Z) (l : list A) : sortBy cmp l ≡ₚ l.
Proof.
  induction l as [|x l IH]; simpl; [done |].
  rewrite insertBy_Permutation. by rewrite IH.
Qed.

Lemma insertBy_descending_sorted {A} (key : A → Z) x (l : list A) :
  StronglySorted (λ a b, (key b ≤ key a)%Z) l →
  StronglySorted (λ a b, (key b ≤ key a)%Z) (insertBy (descending key) x l).
Proof.
  induction 1 as [|y l Hl IH Hy]; simpl; [by repeat constructor |].
  unfold descending at 1. destruct (Z.ltb_spec 0 (key y - key x)).
  - constructor; [done |]. rewrite insertBy_Permutation.
    constructor; [lia | done].
  - constructor; [by constructor |].
    constructor; [lia |]. eapply Forall_impl; [exact Hy |]. simpl. intros; lia.
Qed.

Lemma sortBy_descending_sorted {A} (key : A → Z) (l : list A) :
  StronglySorted (λ a b, (key b ≤ key a)%Z) (sortBy (descending key) l).
Proof.
  induction l as [|x l IH]; simpl; [constructor |].
  by apply insertBy_descending_sorted.
Qed.

(** The sort is stable: among the elements of one key, the order is that of
    the argument. *)
Lemma insertBy_descending_stable {A} (key : A → Z) (k : Z) x (l : list A) :
  List.filter (λ a, (key a =? k)%Z) (insertBy (descending key) x l)
  = List.filter (λ a, (key a =? k)%Z) (x :: l).
Proof.
  induction l as [|y l IH]; [done |].
  simpl. unfold descending at 1. destruct (Z.ltb_spec 0 (key y - key x)); [| done].
  simpl. rewrite IH. simpl.
  destruct (Z.eqb_spec (key x) k), (Z.eqb_spec (key y) k); try done. lia.
Qed.

Lemma sortBy_descending_stable {A} (key : A → Z) (k : Z) (l : list A) :
  List.filter (λ a, (key a =? k)%Z) (sortBy (descending key) l)
  = List.filter (λ a, (key a =? k)%Z) l.
Proof.
  induction l as [|x l IH]; [done |].
  simpl. rewrite insertBy_descending_stable. simpl. by rewrite IH.
Qed.

(** ** The chat store, further *)

Lemma findOneAndUpdate_None P f (chats : list ChatRoutes.Chat) :
  ChatRoutes.findOne P chats = None →
  ChatRoutes.findOneAndUpdate P f chats = (None, chats).
Proof.
  unfold ChatRoutes.findOne. induction chats as [|c chats IH]; simpl; [done |].
  destruct (P c); [done |]. intros H. by rewrite (IH H).
Qed.

Lemma findOneAndUpdate_Some P f (chats : list ChatRoutes.Chat) c :
  ChatRoutes.findOne P chats = Some c →
  ∃ pre post,
    chats = pre ++ c :: post ∧ Forall (λ x, P x = false) pre ∧ P c = true ∧
    ChatRoutes.findOneAndUpdate P f chats = (Some (f c), pre ++ f c :: post).
Proof.
  unfold ChatRoutes.findOne. induction chats as [|d chats IH]; simpl; [done |].
  destruct (P d) eqn:Hd.
  - intros [= ->]. by exists [], chats.
  - intros H. destruct (IH H) as (pre & post & -> & Hpre & Hc & ->).
    exists (d :: pre), post. repeat split; try done. by constructor.
Qed.

Lemma findOne_None_Forall P (chats : list ChatRoutes.Chat) :
  ChatRoutes.findOne P chats = None ↔ Forall (λ c, P c = false) chats.
Proof.
  unfold ChatRoutes.findOne. induction chats as [|c chats IH]; simpl.
  - split; [constructor | done].
  - destruct (P c) eqn:Hc.
    + split; [done |]. intros H. inversion H; congruence.
    + rewrite IH. split; [by constructor | by inversion 1].
Qed.

(** The ways [/:chatId/message] ends. *)
Lemma postMessage_cases isValid chatId userId body_content now nowCast
    (chats : list ChatRoutes.Chat) :
  (∃ code error,
     ChatRoutes.postMessage isValid chatId userId body_content now nowCast chats
       = (Error code error, chats)) ∨
  (isValid chatId = true ∧ ChatRoutes.trim body_content ≠ [] ∧
   ∃ c pre post,
     chats = pre ++ c :: post ∧ Forall (λ x, chatOf chatId userId x = false) pre ∧
     chatOf chatId userId c = true ∧
     ChatRoutes.postMessage isValid chatId userId body_content now nowCast chats
       = (Json 200 (Some (ChatRoutes.mkMessage userId (ChatRoutes.trim body_content)
                            nowCast [])),
          pre ++ ChatRoutes.pushMessage userId body_content now nowCast c :: post)).
Proof.
  unfold ChatRoutes.postMessage.
  destruct (isValid chatId); simpl; [| left; eauto].
  case_bool_decide as Hblank; [left; eauto |].
  fold (chatOf chatId userId).
  destruct (ChatRoutes.findOne (chatOf chatId userId) chats) as [c|] eqn:Hf.
  - right. split; [done |]. split; [done |].
    destruct (findOneAndUpdate_Some _
                (ChatRoutes.pushMessage userId body_content now nowCast) _ _ Hf)
      as (pre & post & -> & Hpre & Hc & ->).
    exists c, pre, post. repeat split; try done.
    unfold ChatRoutes.pushMessage. simpl. by rewrite last_snoc.
  - left. rewrite (findOneAndUpdate_None _ _ _ Hf). eauto.
Qed.

(** X18: a message that is not blank, sent to a chat by one of its
    participants, is appended to that chat and to no other: the stored text
    is the trimmed content, nobody has read it, lastMessageAt is the reading
    of the clock, the reply is the stored message, and every other chat and
    the order of the chats are as before. *)
Theorem postMessage_appends (isValid : ObjectId → bool) (chatId userId : ObjectId)
    (body_content : ChatRoutes.JSString) (now nowCast : Z)
    (chats : list ChatRoutes.Chat) (c : ChatRoutes.Chat) :
  isValid chatId = true → ChatRoutes.trim body_content ≠ [] →
  ChatRoutes.findOne (chatOf chatId userId) chats = Some c →
  ∃ pre post,
    chats = pre ++ c :: post ∧
    ChatRoutes.postMessage isValid chatId userId body_content now nowCast chats
      = (Json 200 (Some (ChatRoutes.mkMessage userId (ChatRoutes.trim body_content)
                           nowCast [])),
         pre ++ ChatRoutes.mkChat (ChatRoutes._id c) (ChatRoutes.participants c)
                  (ChatRoutes.messages c
                   ++ [ChatRoutes.mkMessage userId (ChatRoutes.trim body_content)
                         nowCast []])
                  now :: post).
Proof.
  intros Hvalid Hblank Hf.
  destruct (postMessage_cases isValid chatId userId body_content now nowCast chats)
    as [(code & error & E) | (_ & _ & c' & pre & post & Hchats & Hpre & Hc' & E)].
  - exfalso. revert E. unfold ChatRoutes.postMessage. rewrite Hvalid. simpl.
    rewrite bool_decide_eq_false_2 by done. fold (chatOf chatId userId).
    destruct (findOneAndUpdate_Some _
                (ChatRoutes.pushMessage userId body_content now nowCast) _ _ Hf)
      as (pre & post & _ & _ & _ & ->). done.
  - exists pre, post.
    assert (c' = c) as ->.
    { revert Hf. rewrite Hchats. unfold ChatRoutes.findOne.
      clear -Hpre Hc'. induction Hpre as [|d pre Hd _ IH]; simpl.
      - rewrite Hc'. congruence.
      - by rewrite Hd. }
    split; [done | exact E].
Qed.

(** X18 on "hi" between two spaces, sent by a participant. *)
Lemma postMessage_appends_witness :
  ChatRoutes.postMessage is24 idC idA hi 7 8 [chatC]
    = (Json 200 (Some (ChatRoutes.mkMessage idA [104; 105]%N 8 [])),
       [ChatRoutes.mkChat idC [idA; idB] [ChatRoutes.mkMessage idA [104; 105]%N 8 []] 7]).
Proof.
  destruct (postMessage_appends is24 idC idA hi 7 8 [chatC] chatC)
    as (pre & post & Hchats & E); [reflexivity | discriminate | reflexivity |].
  rewrite E. destruct pre as [|d pre]; [| by destruct pre].
  by injection Hchats as <-.
Defined.

(** X19: a user cannot post to a chat of which the user is not a
    participant, nor to an id under which no chat is stored: the reply is 404
    and no chat changes. *)
Theorem postMessage_outsider (isValid : ObjectId → bool) (chatId userId : ObjectId)
    (body_content : ChatRoutes.JSString) (now nowCast : Z)
    (chats : list ChatRoutes.Chat) :
  isValid chatId = true → ChatRoutes.trim body_content ≠ [] →
  (∀ c, c ∈ chats → ChatRoutes._id c = chatId → userId ∉ ChatRoutes.participants c) →
  ChatRoutes.postMessage isValid chatId userId body_content now nowCast chats
    = (Error 404 "Chat not found.", chats).
Proof.
  intros Hvalid Hblank Hout. unfold ChatRoutes.postMessage. rewrite Hvalid. simpl.
  rewrite bool_decide_eq_false_2 by done. fold (chatOf chatId userId).
  rewrite findOneAndUpdate_None; [done |].
  apply findOne_None_Forall, Forall_forall. intros c Hc. unfold chatOf.
  destruct (decide (ChatRoutes._id c = chatId)) as [Hid | Hid].
  - rewrite (bool_decide_eq_false_2 (userId ∈ _)) by by apply Hout.
    apply andb_false_r.
  - by rewrite (bool_decide_eq_false_2 (_ = chatId)).
Qed.

(** X19 on a user outside the chat of [idA] and [idB]. *)
Lemma postMessage_outsider_witness :
  ChatRoutes.postMessage is24 idC "64b7f0a1c2d3e4f5a6b7c8e0" hi 7 8 [chatC]
    = (Error 404 "Chat not found.", [chatC]).
Proof.
  apply (postMessage_outsider is24 idC "64b7f0a1c2d3e4f5a6b7c8e0" hi 7 8 [chatC]);
    [reflexivity | discriminate |].
  intros c ->%list_elem_of_singleton _. simpl.
  intros H. repeat (apply elem_of_cons in H; destruct H as [H | H]; [discriminate |]).
  by apply elem_of_nil in H.
Defined.

(** X20: when no two chats have the same id, the messages read back from a
    chat right after a post are those it had before followed by the new one,
    each with its sender populated from the user collection: the id, the name
    and the profile picture of the stored user, or null when no user is
    stored under the id of the sender. *)
Theorem getMessages_after_postMessage (isValid : ObjectId → bool)
    (chatId userId : ObjectId) (body_content : ChatRoutes.JSString) (now nowCast : Z)
    (db : Users) (chats : list ChatRoutes.Chat) (c : ChatRoutes.Chat) :
  NoDup (ChatRoutes._id <$> chats) →
  isValid chatId = true → ChatRoutes.trim body_content ≠ [] →
  ChatRoutes.findOne (chatOf chatId userId) chats = Some c →
  ChatRoutes.getMessages isValid chatId db
    (ChatRoutes.postMessage isValid chatId userId body_content now nowCast chats).2
  = Json 200
      ((ChatRoutes.populateSender db <$> ChatRoutes.messages c)
       ++ [ChatRoutes.mkPopulatedMessage
             (match db !! userId with
              | Some u =>
                  Some (ChatRoutes.mkParticipant userId (name u)
                          (Some (default "" (profilePicture u))))
              | None => None
              end)
             (ChatRoutes.trim body_content) nowCast []]).
Proof.
  intros Hnd Hvalid Hblank Hf.
  destruct (postMessage_cases isValid chatId userId body_content now nowCast chats)
    as [(code & error & E) | (_ & _ & c' & pre & post & Hchats & Hpre & Hc' & E)].
  - exfalso. revert E. unfold ChatRoutes.postMessage. rewrite Hvalid. simpl.
    rewrite bool_decide_eq_false_2 by done. fold (chatOf chatId userId).
    destruct (findOneAndUpdate_Some _
                (ChatRoutes.pushMessage userId body_content now nowCast) _ _ Hf)
      as (pre & post & _ & _ & _ & ->). done.
  - assert (c' = c) as ->.
    { revert Hf. rewrite Hchats. unfold ChatRoutes.findOne.
      clear -Hpre Hc'. induction Hpre as [|d pre Hd _ IH]; simpl.
      - rewrite Hc'. congruence.
      - by rewrite Hd. }
    rewrite E. simpl. unfold ChatRoutes.getMessages. rewrite Hvalid. simpl.
    apply andb_true_iff in Hc' as [Hid _]. apply bool_decide_eq_true in Hid.
    assert (ChatRoutes.findOne (λ x, bool_decide (ChatRoutes._id x = chatId))
              (pre ++ ChatRoutes.pushMessage userId body_content now nowCast c :: post)
            = Some (ChatRoutes.pushMessage userId body_content now nowCast c)) as ->.
    { subst chats. rewrite fmap_app, fmap_cons in Hnd.
      apply NoDup_app in Hnd as (_ & Hdisj & _).
      unfold ChatRoutes.findOne. clear -Hdisj Hid.
      induction pre as [|d pre IH]; simpl.
      + by rewrite bool_decide_eq_true_2.
      + rewrite bool_decide_eq_false_2.
        * apply IH. intros x Hx. apply Hdisj. by right.
        * intros Hd. apply (Hdisj (ChatRoutes._id d)); [left |]. rewrite Hd, <- Hid. left. }
    simpl. rewrite fmap_app. simpl.
    unfold ChatRoutes.populateSender at 2, ChatRoutes.populateRef. simpl.
    by destruct (db !! userId).
Qed.

(** X20 on the chat of [idA] and [idB], with alice stored under [idA]. *)
Lemma getMessages_after_postMessage_witness :
  ChatRoutes.getMessages is24 idC (<[idA := alice]> ∅)
    (ChatRoutes.postMessage is24 idC idA hi 7 8 [chatC]).2
  = Json 200 [ChatRoutes.mkPopulatedMessage
                (Some (ChatRoutes.mkParticipant idA None (Some "")))
                [104; 105]%N 8 []].
Proof.
  rewrite (getMessages_after_postMessage is24 idC idA hi 7 8 (<[idA := alice]> ∅)
             [chatC] chatC).
  - vm_compute. reflexivity.
  - simpl. apply NoDup_singleton.
  - reflexivity.
  - discriminate.
  - reflexivity.
Defined.

Lemma start_cases isValid a b n t (chats : list ChatRoutes.Chat) :
  (ChatRoutes.start isValid a b n t chats).2 = chats ∨
  (ChatRoutes.findOne (ChatRoutes.bothParticipate a b) chats = None ∧
   (ChatRoutes.start isValid a b n t chats).2
     = chats ++ [ChatRoutes.mkChat n [a; b] [] t]).
Proof.
  unfold ChatRoutes.start. destruct (isValid b); simpl; [| by left].
  destruct (ChatRoutes.findOne _ chats) eqn:E; [by left | by right].
Qed.

(** X21: starting chats and posting messages, whatever the arguments, keep
    every message well formed: sent by a participant of its chat, not empty,
    and read by nobody (no handler writes readBy). *)
Theorem chat_requests_keep_messages_well_formed (isValid : ObjectId → bool)
    (chats : list ChatRoutes.Chat) :
  messagesWellFormed chats →
  (∀ userId targetUserId newId now,
     messagesWellFormed (ChatRoutes.start isValid userId targetUserId newId now chats).2) ∧
  (∀ chatId userId body_content now nowCast,
     messagesWellFormed
       (ChatRoutes.postMessage isValid chatId userId body_content now nowCast chats).2).
Proof.
  intros Hwf. split.
  - intros a b n t. destruct (start_cases isValid a b n t chats) as [-> | [_ ->]]; [done |].
    intros c m [Hc | ->%list_elem_of_singleton]%elem_of_app Hm.
    + by apply Hwf.
    + by apply elem_of_nil in Hm.
  - intros chatId userId body_content now nowCast.
    destruct (postMessage_cases isValid chatId userId body_content now nowCast chats)
      as [(code & error & ->) | (_ & Hblank & c & pre & post & -> & _ & Hc & ->)];
      [done |].
    simpl. intros d m Hd Hm.
    rewrite elem_of_app, elem_of_cons in Hd. destruct Hd as [Hd | [-> | Hd]].
    + apply Hwf; [| done]. apply elem_of_app. by left.
    + simpl in *. apply elem_of_app in Hm as [Hm | ->%list_elem_of_singleton].
      * apply (Hwf c); [| done]. apply elem_of_app. right. left.
      * simpl. apply andb_true_iff in Hc as [_ Hc]. apply bool_decide_eq_true in Hc.
        done.
    + apply Hwf; [| done]. apply elem_of_app. right. by right.
Qed.

(** X21 on the chat of [idA] and [idB] across a post. *)
Lemma chat_requests_keep_messages_well_formed_witness :
  messagesWellFormed (ChatRoutes.postMessage is24 idC idA hi 7 8 [chatC]).2.
Proof.
  apply (chat_requests_keep_messages_well_formed is24 [chatC]).
  intros c m ->%list_elem_of_singleton Hm. by apply elem_of_nil in Hm.
Defined.

(** X22: no request makes a second chat of the same participants: a
    collection with one chat at most for every set of participants stays so
    across every start and every post. *)
Theorem chat_requests_keep_one_per_pair (isValid : ObjectId → bool)
    (chats : list ChatRoutes.Chat) :
  onePerPair chats →
  (∀ userId targetUserId newId now,
     onePerPair (ChatRoutes.start isValid userId targetUserId newId now chats).2) ∧
  (∀ chatId userId body_content now nowCast,
     onePerPair
       (ChatRoutes.postMessage isValid chatId userId body_content now nowCast chats).2).
Proof.
  intros Hone. split.
  - intros a b n t. destruct (start_cases isValid a b n t chats) as [-> | [Hnone ->]];
      [done |].
    apply findOne_None_Forall in Hnone. rewrite Forall_forall in Hnone.
    assert (∀ i c, chats !! i = Some c →
              ¬ samePair c (ChatRoutes.mkChat n [a; b] [] t)) as Hfresh.
    { intros i c Hi Hsame. specialize (Hnone c (list_elem_of_lookup_2 _ _ _ Hi)).
      unfold ChatRoutes.bothParticipate in Hnone.
      rewrite !bool_decide_eq_true_2 in Hnone; [done | |].
      - apply Hsame. simpl. right. left.
      - apply Hsame. simpl. left. }
    intros i j c1 c2 Hi Hj Hsame.
    destruct (decide (i < length chats)%nat) as [Hil | Hil],
             (decide (j < length chats)%nat) as [Hjl | Hjl].
    + rewrite lookup_app_l in Hi, Hj by done. by apply (Hone i j c1 c2).
    + rewrite lookup_app_l in Hi by done. rewrite lookup_app_r in Hj by lia.
      apply list_lookup_singleton_Some in Hj as [_ <-]. by destruct (Hfresh i c1).
    + rewrite lookup_app_l in Hj by done. rewrite lookup_app_r in Hi by lia.
      apply list_lookup_singleton_Some in Hi as [_ <-].
      destruct (Hfresh j c2 Hj). intros x. by rewrite (Hsame x).
    + rewrite lookup_app_r in Hi, Hj by lia.
      apply list_lookup_singleton_Some in Hi as [Hi _].
      apply list_lookup_singleton_Some in Hj as [Hj _]. lia.
  - intros chatId userId body_content now nowCast.
    destruct (postMessage_cases isValid chatId userId body_content now nowCast chats)
      as [(code & error & ->) | (_ & _ & c & pre & post & -> & _ & _ & ->)];
      [done |].
    simpl.
    assert (∀ i d', (pre ++ ChatRoutes.pushMessage userId body_content now nowCast c
                       :: post) !! i = Some d' →
              ∃ d, (pre ++ c :: post) !! i = Some d ∧
                   ChatRoutes.participants d = ChatRoutes.participants d') as Hsame.
    { intros i d' Hi. destruct (decide (i < length pre)%nat) as [Hl | Hl].
      - rewrite lookup_app_l in Hi by done. exists d'. by rewrite lookup_app_l.
      - rewrite lookup_app_r in Hi by lia. rewrite lookup_app_r by lia.
        destruct (i - length pre)%nat as [|k]; simpl in *.
        + injection Hi as <-. by exists c.
        + by exists d'. }
    intros i j c1 c2 Hi Hj Hpair.
    destruct (Hsame i c1 Hi) as (d1 & Hd1 & Hp1).
    destruct (Hsame j c2 Hj) as (d2 & Hd2 & Hp2).
    apply (Hone i j d1 d2 Hd1 Hd2). intros x. rewrite Hp1, Hp2. apply Hpair.
Qed.

(** X22 on a start request for a pair that has a chat, the other way round. *)
Lemma chat_requests_keep_one_per_pair_witness :
  onePerPair (ChatRoutes.start is24 idB idA "c9" 9 [chatC]).2.
Proof.
  apply (chat_requests_keep_one_per_pair is24 [chatC]).
  intros i j c1 c2 Hi Hj _.
  apply list_lookup_singleton_Some in Hi as [-> _].
  apply list_lookup_singleton_Some in Hj as [-> _]. done.
Defined.

(** ** The chats of a user *)




(** X24: while every stored message is well formed (as start and post
    requests keep it), the unread count of every listed chat is the number
    of all its messages, those the user sent included: nothing marks a
    message as read. *)
Theorem listChats_unread_all (userId : ObjectId) (db : Users)
    (chats : list ChatRoutes.Chat) (entries : list ChatRoutes.ChatEntry) :
  messagesWellFormed chats →
  ChatRoutes.listChats userId db chats = Json 200 entries →
  ∀ e, e ∈ entries → ChatRoutes.unreadCount e = length (ChatRoutes.entry_messages e).
Proof.
  intros Hwf [= <-] e (c & -> & Hc)%list_elem_of_fmap. simpl.
  rewrite sortBy_Permutation in Hc.
  apply list_elem_of_In, filter_In in Hc as [Hc _]. apply list_elem_of_In in Hc.
  unfold ChatRoutes.countUnread. f_equal.
  assert (∀ m, m ∈ ChatRoutes.messages c → ChatRoutes.readBy m = []) as Hread
    by (intros m Hm; by destruct (Hwf c m Hc Hm) as (_ & _ & ?)).
  clear -Hread. induction (ChatRoutes.messages c) as [|m ms IH]; simpl; [done |].
  rewrite (Hread m) by left. simpl. f_equal. apply IH. intros m' Hm'. apply Hread. by right.
Qed.

(** X24 on the chat of [idA] and [idB] after [idA] has posted: one unread
    message for [idA]. *)
Lemma listChats_unread_all_witness :
  Forall (λ e, ChatRoutes.unreadCount e = length (ChatRoutes.entry_messages e))
    [ChatRoutes.mkChatEntry idC [] [ChatRoutes.mkMessage idA [104; 105]%N 8 []] 7 1].
Proof.
  apply Forall_forall.
  apply (listChats_unread_all idA ∅
           (ChatRoutes.postMessage is24 idC idA hi 7 8 [chatC]).2).
  - intros c m Hc Hm. vm_compute in Hc.
    apply list_elem_of_singleton in Hc. subst c. simpl in Hm.
    apply list_elem_of_singleton in Hm. subst m. simpl.
    split; [left | done].
  - vm_compute. reflexivity.
Defined.

(** ** The list of matches *)

Lemma filter_partition_Permutation {A} (f : A → bool) (l : list A) :
  List.filter f l ++ List.filter (λ x, negb (f x)) l ≡ₚ l.
Proof.
  induction l as [|x l IH]; simpl; [done |].
  destruct (f x); simpl.
  - by rewrite IH.
  - by rewrite <- Permutation_middle, IH.
Qed.

Lemma populateMatches_ids (db : Users) ids :
  (Matches.populateMatches db ids).*1 = List.filter (λ i, bool_decide (is_Some (db !! i))) ids.
Proof.
  unfold Matches.populateMatches. induction ids as [|i ids IH]; [done |].
  csimpl. destruct (db !! i) as [u|]; csimpl; [by rewrite IH | done].
Qed.

Lemma sortedMatches_ids cur user (db : Users) chats :
  Matches.match_id <$> Matches.sortedMatches cur user db chats
  ≡ₚ List.filter (λ i, bool_decide (is_Some (db !! i))) (matches user).
Proof.
  unfold Matches.sortedMatches. rewrite <- fmap_app, <- list_fmap_compose.
  rewrite (list_fmap_ext _ fst _) by done.
  rewrite filter_partition_Permutation. by rewrite populateMatches_ids.
Qed.

(** X25: the reply of [/matches] lists the matches of the user that are
    stored users, each as often as it is in the matches array, from the
    latest last message to the earliest, a match without messages counting
    as of the epoch. *)
Theorem listMatches_sorted (currentUserId : ObjectId) (db : Users)
    (chats : list ChatRoutes.Chat) (user : User) :
  db !! currentUserId = Some user →
  ∃ entries,
    Matches.listMatches currentUserId db chats = Json 200 entries ∧
    Matches.match_id <$> entries
      ≡ₚ List.filter (λ i, bool_decide (is_Some (db !! i))) (matches user) ∧
    StronglySorted (λ a b, (Matches.dateOf b ≤ Matches.dateOf a)%Z) entries.
Proof.
  intros Hu. unfold Matches.listMatches, findById. rewrite Hu.
  eexists. split; [done |]. split.
  - rewrite sortBy_Permutation. apply sortedMatches_ids.
  - apply sortBy_descending_sorted.
Qed.

(** X25 on alice: carol, who wrote, comes first. *)
Lemma listMatches_sorted_witness :
  ∃ entries,
    Matches.listMatches "a" dbPins chatsPins = Json 200 entries ∧
    Matches.match_id <$> entries ≡ₚ ["d"; "b"; "c"] ∧
    Matches.match_id <$> entries = ["c"; "b"; "d"].
Proof.
  destruct (listMatches_sorted "a" dbPins chatsPins
              (with_pinnedMatches (λ _, ["b"]) (with_matches (λ _, ["d"; "b"; "c"]) alice)))
    as (entries & E & Hperm & _); [vm_compute; reflexivity |].
  exists entries. split; [exact E |]. split; [exact Hperm |].
  revert E. vm_compute. by intros [= <-].
Defined.

(** X26: pins decide among equals only: the matches whose last message has
    one and the same date (those without messages among them) are listed
    with the pinned ones first, and in the order of the matches array within
    the pinned and within the others. *)
Theorem listMatches_pinned_first_among_equals (currentUserId : ObjectId) (db : Users)
    (chats : list ChatRoutes.Chat) (user : User) (entries : list Matches.MatchEntry)
    (date : Z) :
  db !! currentUserId = Some user →
  Matches.listMatches currentUserId db chats = Json 200 entries →
  List.filter (λ e, (Matches.dateOf e =? date)%Z) entries
  = List.filter (λ e, (Matches.dateOf e =? date)%Z)
      (Matches.fetchMessage currentUserId chats <$>
         List.filter (λ m, Mongo.includes (pinnedMatches user) m.1)
           (Matches.populateMatches db (matches user)))
    ++ List.filter (λ e, (Matches.dateOf e =? date)%Z)
         (Matches.fetchMessage currentUserId chats <$>
            List.filter (λ m, negb (Mongo.includes (pinnedMatches user) m.1))
              (Matches.populateMatches db (matches user))).
Proof.
  intros Hu. unfold Matches.listMatches, findById. rewrite Hu. intros [= <-].
  rewrite sortBy_descending_stable. unfold Matches.sortedMatches.
  apply List.filter_app.
Qed.

(** X26 on alice's matches without messages: bob, pinned, is listed before
    the match that is first in her array. *)
Lemma listMatches_pinned_first_among_equals_witness :
  Matches.match_id <$>
    List.filter (λ e, (Matches.dateOf e =? 0)%Z)
      [Matches.mkMatchEntry "c" None (Some "")
         (Some (ChatRoutes.mkMessage "c" [104; 105]%N 8 []));
       Matches.mkMatchEntry "b" None (Some "") None;
       Matches.mkMatchEntry "d" None (Some "") None]
  = ["b"; "d"].
Proof.
  rewrite (listMatches_pinned_first_among_equals "a" dbPins chatsPins
             (with_pinnedMatches (λ _, ["b"]) (with_matches (λ _, ["d"; "b"; "c"]) alice))
             _ 0); [| vm_compute; reflexivity ..].
  vm_compute. reflexivity.
Defined.

(** ** Registration *)

Lemma find_None_lookup (f : ObjectId * User → bool) (db : Users) :
  List.find f (map_to_list db) = None ↔ ∀ i u, db !! i = Some u → f (i, u) = false.
Proof.
  split.
  - intros H i u Hu. apply (find_none _ _ H (i, u)).
    by apply list_elem_of_In, elem_of_map_to_list.
  - intros H. destruct (List.find f (map_to_list db)) as [[i u]|] eqn:E; [| done].
    apply find_some in E as [Hin Hf].
    apply list_elem_of_In, elem_of_map_to_list in Hin. by rewrite (H i u Hin) in Hf.
Qed.

Lemma save_Some newId doc (db db' : Users) :
  Auth.save newId doc db = Some db' →
  db' = <[newId := doc]> db ∧ Auth.validates doc = true ∧ db !! newId = None ∧
  (∀ i u, db !! i = Some u → email u ≠ email doc ∧ username u ≠ username doc).
Proof.
  unfold Auth.save.
  destruct (Auth.validates doc); [| done].
  destruct (db !! newId) eqn:Hid; [done |]. simpl.
  destruct (Auth.findOneByEmail db (email doc)) eqn:He; [done |].
  destruct (List.find _ _) eqn:Hn; [done |]. simpl. intros [= <-].
  repeat split; try done.
  - apply (proj1 (find_None_lookup _ db)) with (i := i) (u := u) in He; [| done].
    by apply bool_decide_eq_false in He.
  - apply (proj1 (find_None_lookup _ db)) with (i := i) (u := u) in Hn; [| done].
    by apply bool_decide_eq_false in Hn.
Qed.

(** The ways [/register] ends, when it ends. *)
Lemma register_cases hash fuel rnd newId now e p cp n (db : Users) r db' :
  Auth.register hash fuel rnd newId now e p cp n db = Some (r, db') →
  (∃ code error, r = Error code error ∧ (code = 400 ∨ code = 500)%Z ∧ db' = db) ∨
  (∃ finalUsername,
     r = Json 201 (Auth.mkRegisterReply "User registered successfully" newId
                     finalUsername newId) ∧
     e ≠ "" ∧ p ≠ "" ∧ cp = p ∧
     Auth.findOneByEmail db e = None ∧
     (if decide (n = "")
      then Auth.generateUniqueUsername fuel rnd 0 (Auth.beforeAt e) db
      else Some n) = Some finalUsername ∧
     Auth.save newId (newUser e (hash p) (Auth.trimS finalUsername) now) db = Some db').
Proof.
  unfold Auth.register.
  case_bool_decide as He; simpl; [intros [= <- <-]; left; eauto 6 |].
  case_bool_decide as Hp; simpl; [intros [= <- <-]; left; eauto 6 |].
  case_bool_decide as Hcp; simpl; [intros [= <- <-]; left; eauto 6 |].
  destruct (String.eqb_spec p cp) as [<- | Hne]; simpl;
    [| intros [= <- <-]; left; eauto 6].
  destruct (Auth.findOneByEmail db e) eqn:Hfind; [intros [= <- <-]; left; eauto 6 |].
  destruct (if decide (n = "") then _ else _) as [finalUsername|] eqn:Hname; [| done].
  destruct (Auth.save newId _ db) as [db1|] eqn:Hsave; intros [= <- <-];
    [right | left; eauto 6].
  exists finalUsername. done.
Qed.

(** X27: a registration that does not answer 201 (fields missing, passwords
    that differ, an email in use, a document that the schema or a unique
    index refuses) stores nothing; one that does stores exactly one new
    document, under the id of the reply, with the email given, the hash of
    the password, no likes, dislikes, matches or pins, 10 swipes and 5
    spins, and leaves every other document as it was. *)
Theorem register_outcome (hash : string → string) (fuel : nat) (rnd : nat → nat)
    (newId : ObjectId) (now : Z)
    (body_email body_password body_confirmPassword body_username : string)
    (db db' : Users) (r : Response Auth.RegisterReply) :
  Auth.register hash fuel rnd newId now body_email body_password
    body_confirmPassword body_username db = Some (r, db') →
  (statusCode r ≠ 201%Z ∧ db' = db) ∨
  (∃ reply doc,
     r = Json 201 reply ∧ Auth.register_userId reply = newId ∧
     db !! newId = None ∧ db' = <[newId := doc]> db ∧
     email doc = body_email ∧ password doc = hash body_password ∧
     username doc = Auth.trimS (Auth.register_username reply) ∧
     liked doc = [] ∧ disliked doc = [] ∧ matches doc = [] ∧ pinnedMatches doc = [] ∧
     swipeLimit doc = 10%Z ∧ spinLimit doc = 5%Z ∧ lastLogin doc = now).
Proof.
  intros H. apply register_cases in H.
  destruct H as [(code & error & -> & Hcode & ->) | (fin & -> & _ & _ & _ & _ & _ & Hsave)].
  - left. simpl. split; [by destruct Hcode as [-> | ->] | done].
  - right. apply save_Some in Hsave as (-> & _ & Hfresh & _).
    eexists _, _. repeat split; done.
Qed.

(** X27 on dave, who gives no username and draws the suffix 1234. *)
Lemma register_outcome_witness :
  ∃ doc,
    Auth.register hashEx 3 (λ _, 234) "d" 7 "dave@amity.edu" "secret" "secret" "" db0
      = Some (Json 201 (Auth.mkRegisterReply "User registered successfully" "d"
                          "dave_1234" "d"),
              <["d" := doc]> db0) ∧
    username doc = "dave_1234" ∧ swipeLimit doc = 10%Z.
Proof.
  assert (∃ db', Auth.register hashEx 3 (λ _, 234) "d" 7 "dave@amity.edu" "secret"
                   "secret" "" db0
                 = Some (Json 201 (Auth.mkRegisterReply "User registered successfully"
                                     "d" "dave_1234" "d"), db')) as [db' E]
    by (eexists; vm_compute; reflexivity).
  destruct (register_outcome hashEx 3 (λ _, 234) "d" 7 "dave@amity.edu" "secret"
              "secret" "" db0 db' _ E)
    as [[Hcode _] | (reply & doc & Hr & _ & _ & -> & _ & _ & Hn & _ & _ & _ & _ & Hs & _)].
  - by destruct Hcode.
  - exists doc. split; [exact E |]. injection Hr as <-. split; [| exact Hs].
    rewrite Hn. vm_compute. reflexivity.
Defined.

(** X28: registrations keep emails and usernames unique: in a collection
    where no two users share an email or a username, none do after a
    registration, whatever was asked for. *)
Theorem register_keeps_accounts_unique (hash : string → string) (fuel : nat)
    (rnd : nat → nat) (newId : ObjectId) (now : Z)
    (body_email body_password body_confirmPassword body_username : string)
    (db db' : Users) (r : Response Auth.RegisterReply) :
  uniqueAccounts db →
  Auth.register hash fuel rnd newId now body_email body_password
    body_confirmPassword body_username db = Some (r, db') →
  uniqueAccounts db'.
Proof.
  intros Huniq H. apply register_cases in H.
  destruct H as [(code & error & _ & _ & ->) | (fin & _ & _ & _ & _ & _ & _ & Hsave)];
    [done |].
  apply save_Some in Hsave as (-> & _ & Hfresh & Hnew).
  intros i j u v Hi Hj Hsame.
  destruct (decide (newId = i)) as [<- | Hni], (decide (newId = j)) as [<- | Hnj];
    [done | | |].
  - rewrite lookup_insert_eq in Hi. rewrite lookup_insert_ne in Hj by done.
    injection Hi as <-. destruct (Hnew j v Hj) as [? ?]. destruct Hsame; congruence.
  - rewrite lookup_insert_eq in Hj. rewrite lookup_insert_ne in Hi by done.
    injection Hj as <-. destruct (Hnew i u Hi) as [? ?]. destruct Hsame; congruence.
  - rewrite lookup_insert_ne in Hi, Hj by done. by apply (Huniq i j u v).
Qed.

Lemma uniqueAccounts_decide (db : Users) :
  bool_decide (map_Forall (λ i u, map_Forall (λ j v,
     email u = email v ∨ username u = username v → i = j) db) db) = true →
  uniqueAccounts db.
Proof.
  intros H. apply bool_decide_eq_true in H. intros i j u v Hi Hj.
  exact (H i u Hi j v Hj).
Qed.

(** X28 on the registration of dave beside alice and bob. *)
Lemma register_keeps_accounts_unique_witness :
  uniqueAccounts (<["d" := newUser "dave@amity.edu" (hashEx "secret") "dave_1234" 7]> db0).
Proof.
  apply (register_keeps_accounts_unique hashEx 3 (λ _, 234) "d" 7 "dave@amity.edu"
           "secret" "secret" "" db0 _
           (Json 201 (Auth.mkRegisterReply "User registered successfully" "d"
                        "dave_1234" "d"))).
  - apply uniqueAccounts_decide. vm_compute. reflexivity.
  - vm_compute. reflexivity.
Defined.

(** X29: who has registered can log in: after a registration that answered
    201, a login with the same email and password, checked by a
    [bcrypt.compare] that accepts the password against the stored hash,
    answers 200 for the id the registration gave. *)
Theorem register_then_login (hash : string → string) (compare : string → string → bool)
    (toDateString : Z → string) (fuel : nat) (rnd : nat → nat) (newId : ObjectId)
    (now later : Z)
    (body_email body_password body_confirmPassword body_username : string)
    (db db' : Users) (reply : Auth.RegisterReply) :
  Auth.register hash fuel rnd newId now body_email body_password
    body_confirmPassword body_username db = Some (Json 201 reply, db') →
  compare body_password (hash body_password) = true →
  ∃ loginReply,
    (Auth.login compare toDateString body_email body_password later db').1
      = Json 200 loginReply ∧
    Auth.login_userId loginReply = Auth.register_userId reply.
Proof.
  intros H Hcmp. apply register_cases in H.
  destruct H as [(code & error & ? & _) | (fin & [= ->] & He & Hp & _ & Hfree & _ & Hsave)];
    [done |].
  apply save_Some in Hsave as (-> & Hvalid & Hfresh & _).
  set (doc := newUser body_email (hash body_password) (Auth.trimS fin) now) in *.
  assert (Auth.findOneByEmail (<[newId := doc]> db) body_email = Some (newId, doc)) as Hfind.
  { unfold Auth.findOneByEmail in *.
    destruct (List.find _ (map_to_list (<[newId := doc]> db))) as [[i u]|] eqn:E.
    - apply find_some in E as [Hin Hmail].
      apply list_elem_of_In, elem_of_map_to_list in Hin.
      destruct (decide (newId = i)) as [<- | Hne].
      + rewrite lookup_insert_eq in Hin. by injection Hin as <-.
      + rewrite lookup_insert_ne in Hin by done.
        apply (proj1 (find_None_lookup _ db)) with (i := i) (u := u) in Hfree; [| done].
        simpl in *. congruence.
    - apply (proj1 (find_None_lookup _ _)) with (i := newId) (u := doc) in E.
      + simpl in E. by apply bool_decide_eq_false in E.
      + apply lookup_insert_eq. }
  destruct (decide (toDateString (lastLogin doc) = toDateString later)) as [Heq | Hneq].
  - rewrite (login_same_day compare toDateString body_email body_password later _
               newId doc He Hp Hfind Hcmp Heq). simpl. eauto.
  - rewrite (login_new_day compare toDateString body_email body_password later _
               newId doc He Hp Hfind Hcmp Hneq), Hvalid. simpl. eauto.
Qed.

(** X29 on dave, the day he registers. *)
Lemma register_then_login_witness :
  ∃ loginReply,
    (Auth.login compareEx utcDay "dave@amity.edu" "secret" 8
       (<["d" := newUser "dave@amity.edu" (hashEx "secret") "dave_1234" 7]> db0)).1
      = Json 200 loginReply ∧
    Auth.login_userId loginReply = "d".
Proof.
  apply (register_then_login hashEx compareEx utcDay 3 (λ _, 234) "d" 7 8
           "dave@amity.edu" "secret" "secret" "" db0 _
           (Auth.mkRegisterReply "User registered successfully" "d" "dave_1234" "d")).
  - vm_compute. reflexivity.
  - vm_compute. reflexivity.
Defined.

(** X30: [generateUniqueUsername] answers with the first candidate that no
    stored user has as username (the base, an underscore and a number from
    1000 to 9999), once it is allowed at least as many tries as there are
    candidates up to that one; that name is the username of nobody. *)
Theorem generateUniqueUsername_first_free (fuel : nat) (rnd : nat → nat) (k n : nat)
    (baseName : string) (db : Users) :
  (∀ j, (j < n)%nat →
        is_Some (Auth.findOneByUsername db (Auth.candidate baseName (rnd (k + j)%nat)))) →
  Auth.findOneByUsername db (Auth.candidate baseName (rnd (k + n)%nat)) = None →
  (n < fuel)%nat →
  Auth.generateUniqueUsername fuel rnd k baseName db
    = Some (Auth.candidate baseName (rnd (k + n)%nat)) ∧
  (∀ i u, db !! i = Some u →
          username u ≠ Auth.trimS (Auth.candidate baseName (rnd (k + n)%nat))) ∧
  ∃ suffix, (1000 ≤ suffix < 10000)%N ∧
            Auth.candidate baseName (rnd (k + n)%nat) = baseName +:+ "_" +:+ pretty suffix.
Proof.
  intros Htaken Hfree Hfuel. split; [| split].
  - revert k fuel Htaken Hfree Hfuel. induction n as [|n IH]; intros k fuel Htaken Hfree Hfuel.
    + destruct fuel as [|fuel]; [lia |]. simpl. rewrite Nat.add_0_r in Hfree.
      by rewrite Hfree, Nat.add_0_r.
    + destruct fuel as [|fuel]; [lia |]. simpl.
      destruct (Htaken 0%nat ltac:(lia)) as [d Hd]. rewrite Nat.add_0_r in Hd.
      rewrite Hd. replace (k + S n)%nat with (S k + n)%nat by lia.
      apply IH; [| by replace (S k + n)%nat with (k + S n)%nat by lia | lia].
      intros j Hj. replace (S k + j)%nat with (k + S j)%nat by lia.
      apply Htaken. lia.
  - intros i u Hu. unfold Auth.findOneByUsername in Hfree.
    apply (proj1 (find_None_lookup _ db)) with (i := i) (u := u) in Hfree; [| done].
    by apply bool_decide_eq_false in Hfree.
  - exists (1000 + N.of_nat (rnd (k + n)%nat) mod 9000)%N. split; [| reflexivity].
    pose proof (N.mod_upper_bound (N.of_nat (rnd (k + n)%nat)) 9000 ltac:(done)) as H.
    revert H. generalize (N.of_nat (rnd (k + n)%nat) `mod` 9000)%N. clear. intros m H.
    split; [apply N.le_add_r |]. apply (N.add_lt_mono_l _ _ 1000) in H. exact H.
Qed.

(** X30 on a base whose first candidate is the username of alice. *)
Lemma generateUniqueUsername_first_free_witness :
  Auth.generateUniqueUsername 2 (λ k, 234 + k)%nat 0 "alice" db0 = Some "alice_1235".
Proof.
  destruct (generateUniqueUsername_first_free 2 (λ k, 234 + k)%nat 0 1 "alice" db0)
    as [E _].
  - intros j Hj. assert (j = 0)%nat as -> by lia. vm_compute. eauto.
  - vm_compute. reflexivity.
  - lia.
  - rewrite E. vm_compute. reflexivity.
Defined.
